(** * DynamicsWorld: the world/object lifecycle manager of Cinder-Bullet

    A shallow embedding of [src/DynamicsWorld.cpp].  The class keeps a
    registry of collision objects ([mObjects]), forwards every entry and
    exit to the Bullet simulation context ([mWorld]), detects population
    changes in [update] and steps the simulation.

    The Bullet engine, Cinder's [math<float>::max] and the host frame clock
    are external to the repository.  They appear here as small models (module
    [Float32], module [Bullet]) or as parameters ([integrate], the frame rate
    handed to [update]).  Every effect the class has on its registry or on the
    engine is also recorded, in program order, in a ghost [trace], so that
    ordering and "was it called" properties can be stated. *)

From Stdlib Require Import ZArith Lia Bool.
From Stdlib Require Import Floats.SpecFloat.
From stdpp Require Import base list.

Set Default Proof Using "Type".

(** ** Single-precision floats

    C++ [float] is IEEE-754 binary32: 24 bits of precision, maximal exponent
    128, on top of the Standard Library's format-generic [spec_float]. *)

Module Float32.

Definition prec : Z := 24.
Definition emax : Z := 128.

Definition float : Type := spec_float.

(** The literals [0.0f] and [1.0f]. *)
Definition zero : float := S754_zero false.
Definition one : float := S754_finite false 8388608 (-23).

Definition is_nan (x : float) : bool :=
  match x with S754_nan => true | _ => false end.

Definition is_zero (x : float) : bool :=
  match x with S754_zero _ => true | _ => false end.

(** [x / y], rounded to nearest even. *)
Definition div (x y : float) : float := SFdiv prec emax x y.

(** [x > y]; false as soon as one side is a NaN. *)
Definition gt (x y : float) : bool :=
  match SFcompare x y with Some Gt => true | _ => false end.

(** [x <= y]. *)
Definition le (x y : float) : bool := SFleb x y.

(** Modelled from the spec: Cinder's [math<float>::max], which is not part of
    the repository.  The spec describes it as the clamp that keeps the frame
    rate from being "treated as less than 1.0"; the model is the two-argument
    maximum [( x > y ) ? x : y]. *)
Definition max (x y : float) : float := if gt x y then x else y.

End Float32.

(** ** Machine integers *)

Definition UINT32_MOD : Z := 2 ^ 32.
Definition INT_MAX : Z := 2 ^ 31 - 1.

(** Conversion to [uint32_t]. *)
Definition to_uint32 (z : Z) : Z := (z mod UINT32_MOD)%Z.

(** ** The Bullet engine, as far as [DynamicsWorld] uses it *)

Module Bullet.

(** [btCollisionObject::CollisionObjectTypes]. *)
Inductive CollisionObjectTypes : Type :=
| CO_COLLISION_OBJECT
| CO_RIGID_BODY
| CO_GHOST_OBJECT
| CO_SOFT_BODY.

(** A native body.  [address] stands for the pointer by which both the
    wrapper and the engine know it; [awake] is the activation state. *)
Record btCollisionObject : Type := mkBody {
  address : nat;
  m_internalType : CollisionObjectTypes;
  awake : bool
}.

(** Modelled from the spec: [btRigidBody::upcast] and [btSoftBody::upcast]
    (engine code, absent from src/): the body itself when its internal type
    matches, a null pointer otherwise. *)
Definition btRigidBody_upcast (colObj : btCollisionObject) : option btCollisionObject :=
  match m_internalType colObj with
  | CO_RIGID_BODY => Some colObj
  | _ => None
  end.

Definition btSoftBody_upcast (colObj : btCollisionObject) : option btCollisionObject :=
  match m_internalType colObj with
  | CO_SOFT_BODY => Some colObj
  | _ => None
  end.

(** Modelled from the spec: [activate( true )], the engine's "per-object
    force-activate". *)
Definition activate (forceActivation : bool) (b : btCollisionObject) : btCollisionObject :=
  mkBody (address b) (m_internalType b) true.

(** The simulation context: the array behind
    [getCollisionObjectArray()]. *)
Record btDiscreteDynamicsWorld : Type := mkContext {
  getCollisionObjectArray : list btCollisionObject
}.

(** [btAlignedObjectArray::size()], an [int]. *)
Definition size (arr : list btCollisionObject) : Z := Z.of_nat (length arr).

(** First index of the array holding the body at address [a]. *)
Fixpoint findLinearSearch (a : nat) (arr : list btCollisionObject) : option nat :=
  match arr with
  | [] => None
  | b :: rest =>
      if Nat.eqb (address b) a then Some 0
      else match findLinearSearch a rest with
           | Some i => Some (S i)
           | None => None
           end
  end.

(** Modelled from the spec: "register/unregister rigid and soft bodies
    against the context".  Registration appends the body to the array;
    unregistration takes the body with that address out of it and does
    nothing when the body is not there. *)
Definition addCollisionObject (b : btCollisionObject) (ctx : btDiscreteDynamicsWorld)
  : btDiscreteDynamicsWorld :=
  mkContext (getCollisionObjectArray ctx ++ [b]).

Definition removeCollisionObject (b : btCollisionObject) (ctx : btDiscreteDynamicsWorld)
  : btDiscreteDynamicsWorld :=
  match findLinearSearch (address b) (getCollisionObjectArray ctx) with
  | Some i => mkContext (delete i (getCollisionObjectArray ctx))
  | None => ctx
  end.

Definition addRigidBody := addCollisionObject.
Definition addSoftBody := addCollisionObject.
Definition removeRigidBody := removeCollisionObject.
Definition removeSoftBody := removeCollisionObject.

End Bullet.

Import Bullet.

(** ** CollisionObject

    The wrapper class of the repository's header (not under src/), seen
    through the three members [DynamicsWorld] calls. *)
Record CollisionObject : Type := mkCollisionObject {
  isRigidBody : bool;
  isSoftBody : bool;
  getBulletBody : btCollisionObject
}.

(** An object the factories produce: it is rigid or soft. *)
Definition valid_object (o : CollisionObject) : Prop :=
  isRigidBody o || isSoftBody o = true.

(** ** Pointers and the ghost trace *)

(** An owning raw pointer to an engine substructure. *)
Inductive ptr : Type :=
| null
| addr (a : nat).

Definition is_null (p : ptr) : bool :=
  match p with null => true | addr _ => false end.

(** The five members the destructor may delete. *)
Inductive Owned : Type :=
| Broadphase
| CollisionConfiguration
| Dispatcher
| SimulationContext
| ConstraintSolver.

#[global] Instance Owned_eq_dec : EqDecision Owned.
Proof. solve_decision. Defined.

Inductive ActivationPath : Type := RigidPath | SoftPath.

(** One entry per effect, in program order.  Bodies are named by address. *)
Inductive Event : Type :=
| EvPushBack (a : nat)                    (* mObjects.push_back *)
| EvErase (pos : nat)                     (* mObjects.erase *)
| EvAddRigidBody (a : nat)
| EvAddSoftBody (a : nat)
| EvRemoveRigidBody (a : nat)
| EvRemoveSoftBody (a : nat)
| EvActivate (path : ActivationPath) (a : nat)
| EvStepSimulation (timeStep : Float32.float) (maxSubSteps : Z)
                   (fixedTimeStep : Float32.float)
| EvDelete (m : Owned).

Definition is_activation (e : Event) : bool :=
  match e with EvActivate _ _ => true | _ => false end.

Definition is_step (e : Event) : bool :=
  match e with EvStepSimulation _ _ _ => true | _ => false end.

(** ** DynamicsWorld *)

(** Positions in the registry ([Iter]) are indices; [end()] is the length. *)
Abbreviation Iter := nat.

Record DynamicsWorld : Type := mkDynamicsWorld {
  mBroadphase : ptr;
  mCollisionConfiguration : ptr;
  mDispatcher : ptr;
  mSolver : ptr;
  (** [mWorld] is the pointer, [mWorld_obj] the context it points to. *)
  mWorld : ptr;
  mWorld_obj : btDiscreteDynamicsWorld;
  mObjects : list CollisionObject;
  mNumObjects : Z;
  trace : list Event
}.

Definition set_mWorld_obj (f : btDiscreteDynamicsWorld -> btDiscreteDynamicsWorld)
  (w : DynamicsWorld) : DynamicsWorld :=
  mkDynamicsWorld (mBroadphase w) (mCollisionConfiguration w) (mDispatcher w)
    (mSolver w) (mWorld w) (f (mWorld_obj w)) (mObjects w) (mNumObjects w) (trace w).

Definition set_mObjects (f : list CollisionObject -> list CollisionObject)
  (w : DynamicsWorld) : DynamicsWorld :=
  mkDynamicsWorld (mBroadphase w) (mCollisionConfiguration w) (mDispatcher w)
    (mSolver w) (mWorld w) (mWorld_obj w) (f (mObjects w)) (mNumObjects w) (trace w).

Definition set_mNumObjects (n : Z) (w : DynamicsWorld) : DynamicsWorld :=
  mkDynamicsWorld (mBroadphase w) (mCollisionConfiguration w) (mDispatcher w)
    (mSolver w) (mWorld w) (mWorld_obj w) (mObjects w) n (trace w).

Definition record (e : Event) (w : DynamicsWorld) : DynamicsWorld :=
  mkDynamicsWorld (mBroadphase w) (mCollisionConfiguration w) (mDispatcher w)
    (mSolver w) (mWorld w) (mWorld_obj w) (mObjects w) (mNumObjects w)
    (trace w ++ [e]).

(** The live object count the simulation context reports. *)
Definition live_count (w : DynamicsWorld) : Z :=
  size (getCollisionObjectArray (mWorld_obj w)).

(** The events a call added to the trace. *)
Definition emitted (before after : DynamicsWorld) : list Event :=
  drop (length (trace before)) (trace after).

(** The third argument of the [stepSimulation] call in [update]. *)
Definition fixedTimeStep_of (frameRate : Float32.float) : Float32.float :=
  Float32.div Float32.one (Float32.max Float32.one frameRate).

(** ** Sample data *)

Definition rigid_box : CollisionObject :=
  mkCollisionObject true false (mkBody 101 CO_RIGID_BODY false).

Definition soft_cloth : CollisionObject :=
  mkCollisionObject false true (mkBody 102 CO_SOFT_BODY false).

Definition untyped_object : CollisionObject :=
  mkCollisionObject false false (mkBody 103 CO_GHOST_OBJECT false).

(** [60.0f], the host's default frame rate. *)
Definition sixty_fps : Float32.float := S754_finite false 15728640 (-18).

(** A step after which every body has gone to sleep. *)
Definition lull (timeStep : Float32.float) (maxSubSteps : Z)
  (fixedTimeStep : Float32.float) (arr : list btCollisionObject)
  : list btCollisionObject :=
  (fun b => mkBody (address b) (m_internalType b) false) <$> arr.

(** A world that has seen one box come, one [update], and the box go. *)
Definition emptied_world : DynamicsWorld :=
  mkDynamicsWorld (addr 3) (addr 1) (addr 2) (addr 4) (addr 5)
    (mkContext []) [] 1
    [EvPushBack 101; EvAddRigidBody 101; EvActivate RigidPath 101;
     EvStepSimulation Float32.one 10 (fixedTimeStep_of sixty_fps);
     EvRemoveRigidBody 101; EvErase 0].

Section World.

(** What one [stepSimulation] call does to the bodies of the context is the
    engine's business; it is a parameter of the development. *)
Variable integrate :
  Float32.float -> Z -> Float32.float ->
  list btCollisionObject -> list btCollisionObject.

Definition stepSimulation (timeStep : Float32.float) (maxSubSteps : Z)
  (fixedTimeStep : Float32.float) (ctx : btDiscreteDynamicsWorld)
  : btDiscreteDynamicsWorld :=
  mkContext (integrate timeStep maxSubSteps fixedTimeStep (getCollisionObjectArray ctx)).

(** *** Construction and destruction *)

(** The constructor.  The five [new] expressions yield the fresh addresses
    [aConfiguration] .. [aWorld]; the context starts without objects.  The
    soft-body world info and the elapsed-seconds stamp play no role in the
    operations below and are left out. *)
Definition create (aConfiguration aDispatcher aBroadphase aSolver aWorld : nat)
  : DynamicsWorld :=
  mkDynamicsWorld (addr aBroadphase) (addr aConfiguration) (addr aDispatcher)
    (addr aSolver) (addr aWorld) (mkContext []) [] 0 [].

Definition delete_if_set (p : ptr) (m : Owned) : list Event :=
  if is_null p then [] else [EvDelete m].

(** The destructor body: the deletions it performs, in order. *)
Definition destructor (w : DynamicsWorld) : list Event :=
  delete_if_set (mBroadphase w) Broadphase ++
  delete_if_set (mCollisionConfiguration w) CollisionConfiguration ++
  delete_if_set (mDispatcher w) Dispatcher ++
  delete_if_set (mWorld w) SimulationContext ++
  delete_if_set (mSolver w) ConstraintSolver.

(** *** Registry *)

Definition begin (w : DynamicsWorld) : Iter := 0.

Definition end_ (w : DynamicsWorld) : Iter := length (mObjects w).

Definition toBulletRigidBody (object : CollisionObject) : btCollisionObject :=
  getBulletBody object.

Definition toBulletSoftBody (object : CollisionObject) : btCollisionObject :=
  getBulletBody object.

(** The engine calls and container calls of [erase] and [pushBack], each
    with its trace entry. *)
Definition mWorld_removeRigidBody (b : btCollisionObject) (w : DynamicsWorld) :=
  record (EvRemoveRigidBody (address b)) (set_mWorld_obj (removeRigidBody b) w).

Definition mWorld_removeSoftBody (b : btCollisionObject) (w : DynamicsWorld) :=
  record (EvRemoveSoftBody (address b)) (set_mWorld_obj (removeSoftBody b) w).

Definition mWorld_addRigidBody (b : btCollisionObject) (w : DynamicsWorld) :=
  record (EvAddRigidBody (address b)) (set_mWorld_obj (addRigidBody b) w).

Definition mWorld_addSoftBody (b : btCollisionObject) (w : DynamicsWorld) :=
  record (EvAddSoftBody (address b)) (set_mWorld_obj (addSoftBody b) w).

Definition mObjects_erase (pos : Iter) (w : DynamicsWorld) : DynamicsWorld :=
  record (EvErase pos) (set_mObjects (delete pos) w).

Definition mObjects_push_back (object : CollisionObject) (w : DynamicsWorld)
  : DynamicsWorld :=
  record (EvPushBack (address (getBulletBody object)))
    (set_mObjects (fun l => l ++ [object]) w).

(** [erase( pos )].  A position that does not refer to an element cannot be
    dereferenced: the call has no defined result ([None]).  Otherwise the
    result is the position the container's [erase] returns, the same index,
    and the new world. *)
Definition erase (pos : Iter) (w : DynamicsWorld) : option (Iter * DynamicsWorld) :=
  match mObjects w !! pos with
  | None => None
  | Some object =>
      let w1 :=
        if isRigidBody object then
          mWorld_removeRigidBody (toBulletRigidBody object) w
        else if isSoftBody object then
          mWorld_removeSoftBody (toBulletSoftBody object) w
        else w in
      Some (pos, mObjects_erase pos w1)
  end.

(** [pushBack( object )]. *)
Definition pushBack (object : CollisionObject) (w : DynamicsWorld) : DynamicsWorld :=
  let w1 := mObjects_push_back object w in
  if isRigidBody object then
    mWorld_addRigidBody (toBulletRigidBody object) w1
  else if isSoftBody object then
    mWorld_addSoftBody (toBulletSoftBody object) w1
  else w1.

Definition getNumObjects (w : DynamicsWorld) : Z := mNumObjects w.

Definition getObjects (w : DynamicsWorld) : list CollisionObject := mObjects w.

(** *** update *)

(** [body->activate( true )] on the element at index [i] of the array. *)
Definition activate_in_place (path : ActivationPath) (i : nat)
  (body : btCollisionObject) (w : DynamicsWorld) : DynamicsWorld :=
  record (EvActivate path (address body))
    (set_mWorld_obj
       (fun ctx => mkContext (<[i := activate true body]> (getCollisionObjectArray ctx)))
       w).

(** One turn of the loop "Activate all bodies". *)
Definition activate_body (i : nat) (w : DynamicsWorld) : DynamicsWorld :=
  match getCollisionObjectArray (mWorld_obj w) !! i with
  | None => w
  | Some collisionObject =>
      match btRigidBody_upcast collisionObject with
      | Some rigidBody => activate_in_place RigidPath i rigidBody w
      | None =>
          match btSoftBody_upcast collisionObject with
          | Some softBody => activate_in_place SoftPath i softBody w
          | None => w
          end
      end
  end.

(** [for ( uint32_t i = 0; i < numObjects; i++ )]. *)
Definition activate_all (numObjects : Z) (w : DynamicsWorld) : DynamicsWorld :=
  fold_left (fun acc i => activate_body i acc) (seq 0 (Z.to_nat numObjects)) w.

Definition mWorld_stepSimulation (timeStep : Float32.float) (maxSubSteps : Z)
  (fixedTimeStep : Float32.float) (w : DynamicsWorld) : DynamicsWorld :=
  record (EvStepSimulation timeStep maxSubSteps fixedTimeStep)
    (set_mWorld_obj (stepSimulation timeStep maxSubSteps fixedTimeStep) w).

(** [update()].  [frameRate] is what the host's [getFrameRate()] answers
    during the call.  [finish] is the part of the body after the
    count-changed block, reached unless the block returns. *)
Definition update (frameRate : Float32.float) (w : DynamicsWorld) : DynamicsWorld :=
  let numObjects := to_uint32 (size (getCollisionObjectArray (mWorld_obj w))) in
  let finish (w' : DynamicsWorld) :=
    mWorld_stepSimulation Float32.one 10 (fixedTimeStep_of frameRate)
      (set_mNumObjects numObjects w') in
  if negb (mNumObjects w =? numObjects)%Z then
    if (numObjects <=? 0)%Z then w
    else finish (activate_all numObjects w)
  else finish w.

(** *** Sequences of calls *)

Inductive Call : Type :=
| CallPushBack (object : CollisionObject)
| CallErase (pos : Iter)
| CallUpdate (frameRate : Float32.float).

Definition call (c : Call) (w : DynamicsWorld) : option DynamicsWorld :=
  match c with
  | CallPushBack object => Some (pushBack object w)
  | CallErase pos => snd <$> erase pos w
  | CallUpdate frameRate => Some (update frameRate w)
  end.

Fixpoint run (cs : list Call) (w : DynamicsWorld) : option DynamicsWorld :=
  match cs with
  | [] => Some w
  | c :: rest =>
      match call c w with
      | Some w' => run rest w'
      | None => None
      end
  end.

(** Worlds built from a fresh one by [pushBack] of valid objects and
    [erase] at valid positions. *)
Inductive populated : DynamicsWorld -> Prop :=
| populated_create a1 a2 a3 a4 a5 :
    populated (create a1 a2 a3 a4 a5)
| populated_pushBack object w :
    populated w -> valid_object object -> populated (pushBack object w)
| populated_erase pos w next w' :
    populated w -> erase pos w = Some (next, w') -> populated w'.

(** Does this call of [update] run the activation loop?  The two tests
    that guard it. *)
Definition runs_activation_pass (w : DynamicsWorld) : bool :=
  negb (mNumObjects w =? to_uint32 (live_count w))%Z
  && negb (to_uint32 (live_count w) <=? 0)%Z.

(** Does this call of [update] get past the count-changed block, to the
    count update and the stepping? *)
Definition reaches_count_update (w : DynamicsWorld) : bool :=
  negb (negb (mNumObjects w =? to_uint32 (live_count w))%Z
        && (to_uint32 (live_count w) <=? 0)%Z).

(** The value [getNumObjects] is expected to give after the calls [cs],
    following the text: [acc] until an [update] reaches its count update,
    from then on the live count that the latest such [update] saw. *)
Fixpoint last_recorded (cs : list Call) (w : DynamicsWorld) (acc : Z) : Z :=
  match cs with
  | [] => acc
  | c :: rest =>
      match call c w with
      | None => acc
      | Some w' =>
          last_recorded rest w'
            match c with
            | CallUpdate _ =>
                if reaches_count_update w then to_uint32 (live_count w) else acc
            | _ => acc
            end
      end
  end.

(** Where a member sits in a sequence of deletions. *)
Fixpoint deletion_index (m : Owned) (evs : list Event) : option nat :=
  match evs with
  | [] => None
  | e :: rest =>
      match e with
      | EvDelete m' =>
          if decide (m' = m) then Some 0 else S <$> deletion_index m rest
      | _ => S <$> deletion_index m rest
      end
  end.

Definition deleted (m : Owned) (evs : list Event) : Prop :=
  is_Some (deletion_index m evs).

Definition deleted_before (m1 m2 : Owned) (evs : list Event) : Prop :=
  exists i j, deletion_index m1 evs = Some i /\ deletion_index m2 evs = Some j /\ i < j.

(** The registry and the context hold the same bodies, and every registry
    entry is rigid or soft. *)
Definition registered (w : DynamicsWorld) : Prop :=
  (address ∘ getBulletBody) <$> mObjects w
    ≡ₚ address <$> getCollisionObjectArray (mWorld_obj w)
  /\ Forall valid_object (mObjects w).

(** All five owning pointers are set, as after construction. *)
Definition owns_all (w : DynamicsWorld) : Prop :=
  is_null (mBroadphase w) = false /\
  is_null (mCollisionConfiguration w) = false /\
  is_null (mDispatcher w) = false /\
  is_null (mWorld w) = false /\
  is_null (mSolver w) = false.

(** The activation call the loop of [update] makes for a body, if any. *)
Definition activation_path (b : btCollisionObject) : option ActivationPath :=
  match m_internalType b with
  | CO_RIGID_BODY => Some RigidPath
  | CO_SOFT_BODY => Some SoftPath
  | _ => None
  end.

Definition activation_event (b : btCollisionObject) : option Event :=
  (fun path => EvActivate path (address b)) <$> activation_path b.

(** A body after the loop has dealt with it. *)
Definition woken (b : btCollisionObject) : btCollisionObject :=
  match activation_path b with
  | Some _ => activate true b
  | None => b
  end.

(** Everything but the context, the counter and the trace. *)
Definition same_members (w w' : DynamicsWorld) : Prop :=
  mBroadphase w' = mBroadphase w /\
  mCollisionConfiguration w' = mCollisionConfiguration w /\
  mDispatcher w' = mDispatcher w /\
  mSolver w' = mSolver w /\
  mWorld w' = mWorld w /\
  mObjects w' = mObjects w.

(** The bodies the loop of [update] visits: the first [numObjects] of the
    array, which is all of it when the size fits [uint32_t]. *)
Definition visited (w : DynamicsWorld) : list btCollisionObject :=
  take (Z.to_nat (to_uint32 (live_count w))) (getCollisionObjectArray (mWorld_obj w)).

(** The array as the activation loop leaves it. *)
Definition after_activation (w : DynamicsWorld) : list btCollisionObject :=
  (woken <$> visited w)
  ++ drop (Z.to_nat (to_uint32 (live_count w))) (getCollisionObjectArray (mWorld_obj w)).

(** ** The remaining members and the factory functions *)

(** *** Accessors *)

Definition getBroadphase (w : DynamicsWorld) : ptr := mBroadphase w.

Definition getCollisionConfiguration (w : DynamicsWorld) : ptr :=
  mCollisionConfiguration w.

Definition getDispatcher (w : DynamicsWorld) : ptr := mDispatcher w.

Definition getSolver (w : DynamicsWorld) : ptr := mSolver w.

Definition getWorld (w : DynamicsWorld) : ptr := mWorld w.

(** The pointer the destructor tests for each member. *)
Definition member_ptr (m : Owned) (w : DynamicsWorld) : ptr :=
  match m with
  | Broadphase => mBroadphase w
  | CollisionConfiguration => mCollisionConfiguration w
  | Dispatcher => mDispatcher w
  | SimulationContext => mWorld w
  | ConstraintSolver => mSolver w
  end.

(** *** Factories *)

(** [createWorld()]. *)
Definition createWorld (aConfiguration aDispatcher aBroadphase aSolver aWorld : nat)
  : DynamicsWorld :=
  create aConfiguration aDispatcher aBroadphase aSolver aWorld.

(** [&world->mObjects[ world->mObjects.size() - 1 ]], the reference every
    factory returns.  Indexing outside the registry has no defined result
    ([None]); the factories index right after a [pushBack], when the size
    is at least one and the subtraction does not wrap. *)
Definition last_object_ref (world : DynamicsWorld) : option CollisionObject :=
  mObjects world !! (length (mObjects world) - 1).

(** The six factories share one body: [pushBack] the object the [new]
    expression built, then return the reference to the last registry
    entry.  The constructors of the object classes are not under src/; the
    object they build is the second argument. *)
Definition createRigidBox (world : DynamicsWorld) (box : CollisionObject)
  : option CollisionObject * DynamicsWorld :=
  let world' := pushBack box world in (last_object_ref world', world').

Definition createRigidCylinder (world : DynamicsWorld) (cylinder : CollisionObject)
  : option CollisionObject * DynamicsWorld :=
  let world' := pushBack cylinder world in (last_object_ref world', world').

Definition createRigidHull (world : DynamicsWorld) (hull : CollisionObject)
  : option CollisionObject * DynamicsWorld :=
  let world' := pushBack hull world in (last_object_ref world', world').

Definition createRigidMesh (world : DynamicsWorld) (mesh : CollisionObject)
  : option CollisionObject * DynamicsWorld :=
  let world' := pushBack mesh world in (last_object_ref world', world').

Definition createRigidSphere (world : DynamicsWorld) (sphere : CollisionObject)
  : option CollisionObject * DynamicsWorld :=
  let world' := pushBack sphere world in (last_object_ref world', world').

Definition createRigidTerrain (world : DynamicsWorld) (terrain : CollisionObject)
  : option CollisionObject * DynamicsWorld :=
  let world' := pushBack terrain world in (last_object_ref world', world').

(** *** Vocabulary for the properties below *)

(** [pushBack] for each object of a batch, first to last. *)
Definition pushBack_all (objects : list CollisionObject) (w : DynamicsWorld)
  : DynamicsWorld :=
  fold_left (fun acc object => pushBack object acc) objects w.

(** One [update] per frame rate, first to last. *)
Definition updates (frameRates : list Float32.float) (w : DynamicsWorld)
  : DynamicsWorld :=
  fold_left (fun acc frameRate => update frameRate acc) frameRates w.

(** The discriminant agrees with the native body behind the handle. *)
Definition well_typed_object (o : CollisionObject) : Prop :=
  m_internalType (getBulletBody o) =
  if isRigidBody o then CO_RIGID_BODY
  else if isSoftBody o then CO_SOFT_BODY
  else m_internalType (getBulletBody o).

(** The activation call [update] owes an object, by its discriminant. *)
Definition expected_activation (o : CollisionObject) : Event :=
  EvActivate (if isRigidBody o then RigidPath else SoftPath)
    (address (getBulletBody o)).

(** The step entry of one [update]. *)
Definition step_event (frameRate : Float32.float) : Event :=
  EvStepSimulation Float32.one 10 (fixedTimeStep_of frameRate).

(** The engine's step neither adds nor removes bodies. *)
Definition size_preserving : Prop :=
  forall timeStep maxSubSteps fixedTimeStep arr,
    length (integrate timeStep maxSubSteps fixedTimeStep arr) = length arr.

(** The bodies of the context, by address. *)
Definition live_addresses (w : DynamicsWorld) : list nat :=
  address <$> getCollisionObjectArray (mWorld_obj w).

(** The engine's step keeps the bodies of the context, in their places. *)
Definition address_preserving : Prop :=
  forall timeStep maxSubSteps fixedTimeStep arr,
    address <$> integrate timeStep maxSubSteps fixedTimeStep arr = address <$> arr.

(** A call that appends only rigid or soft objects. *)
Definition valid_call (c : Call) : Prop :=
  match c with
  | CallPushBack object => valid_object object
  | _ => True
  end.

(** ** Basic facts *)

Lemma emitted_app before after evs :
  trace after = trace before ++ evs -> emitted before after = evs.
Proof.
  intros H. unfold emitted. rewrite H. apply drop_app_length.
Qed.

Lemma to_uint32_small z : (0 <= z < UINT32_MOD)%Z -> to_uint32 z = z.
Proof. intros H. unfold to_uint32. apply Z.mod_small. exact H. Qed.

Lemma size_nonneg arr : (0 <= size arr)%Z.
Proof. unfold size. lia. Qed.

Lemma findLinearSearch_Some a arr i :
  findLinearSearch a arr = Some i ->
  exists b, arr !! i = Some b /\ address b = a.
Proof.
  revert i. induction arr as [|b rest IH]; intros i; simpl; [discriminate|].
  destruct (Nat.eqb (address b) a) eqn:E.
  - intros [= <-]. exists b. split; [reflexivity|]. apply Nat.eqb_eq. exact E.
  - destruct (findLinearSearch a rest) as [j|]; [|discriminate].
    intros [= <-]. destruct (IH j eq_refl) as (b' & Hb & Ha).
    exists b'. split; assumption.
Qed.

Lemma findLinearSearch_elem a arr :
  a ∈ address <$> arr -> is_Some (findLinearSearch a arr).
Proof.
  induction arr as [|b rest IH]; simpl.
  - intros H. inversion H.
  - intros H. destruct (Nat.eqb (address b) a) eqn:E; [eexists; reflexivity|].
    apply Nat.eqb_neq in E. apply elem_of_cons in H as [H|H]; [congruence|].
    destruct (IH H) as [j ->]. eexists; reflexivity.
Qed.

(** Unregistering a body that is in the array takes out one entry with its
    address. *)
Lemma removeCollisionObject_registered b ctx :
  address b ∈ address <$> getCollisionObjectArray ctx ->
  address <$> getCollisionObjectArray ctx
    ≡ₚ address b :: (address <$> getCollisionObjectArray (removeCollisionObject b ctx)).
Proof.
  intros Hin. unfold removeCollisionObject.
  destruct (findLinearSearch_elem _ _ Hin) as [i Hi]. rewrite Hi. simpl.
  destruct (findLinearSearch_Some _ _ _ Hi) as (b' & Hb' & Ha).
  rewrite (delete_Permutation _ _ _ Hb') at 1. simpl. rewrite Ha. reflexivity.
Qed.

(** *** What [pushBack] and [erase] leave alone and what they emit *)

Lemma pushBack_mObjects object w :
  mObjects (pushBack object w) = mObjects w ++ [object].
Proof.
  unfold pushBack. destruct (isRigidBody object), (isSoftBody object); reflexivity.
Qed.

Lemma pushBack_mNumObjects object w :
  mNumObjects (pushBack object w) = mNumObjects w.
Proof.
  unfold pushBack. destruct (isRigidBody object), (isSoftBody object); reflexivity.
Qed.

Lemma pushBack_trace object w :
  trace (pushBack object w) =
  trace w ++
  EvPushBack (address (getBulletBody object)) ::
  (if isRigidBody object then [EvAddRigidBody (address (getBulletBody object))]
   else if isSoftBody object then [EvAddSoftBody (address (getBulletBody object))]
   else []).
Proof.
  unfold pushBack. destruct (isRigidBody object), (isSoftBody object); simpl;
    rewrite <- ?app_assoc; reflexivity.
Qed.

Lemma pushBack_array object w :
  getCollisionObjectArray (mWorld_obj (pushBack object w)) =
  getCollisionObjectArray (mWorld_obj w) ++
  (if isRigidBody object || isSoftBody object then [getBulletBody object] else []).
Proof.
  unfold pushBack. destruct (isRigidBody object), (isSoftBody object); simpl;
    rewrite ?app_nil_r; reflexivity.
Qed.

Lemma erase_Some pos w next w' :
  erase pos w = Some (next, w') ->
  exists object,
    mObjects w !! pos = Some object /\
    next = pos /\
    mObjects w' = delete pos (mObjects w) /\
    mNumObjects w' = mNumObjects w /\
    trace w' =
      trace w ++
      (if isRigidBody object then [EvRemoveRigidBody (address (getBulletBody object))]
       else if isSoftBody object then [EvRemoveSoftBody (address (getBulletBody object))]
       else []) ++ [EvErase pos] /\
    mWorld_obj w' =
      (if isRigidBody object || isSoftBody object
       then removeCollisionObject (getBulletBody object) (mWorld_obj w)
       else mWorld_obj w).
Proof.
  unfold erase. destruct (mObjects w !! pos) as [object|] eqn:E; [|discriminate].
  intros [= <- <-]. exists object.
  destruct (isRigidBody object), (isSoftBody object); simpl;
    rewrite <- ?app_assoc; repeat split; reflexivity.
Qed.

Lemma erase_valid pos w :
  pos < length (mObjects w) -> is_Some (erase pos w).
Proof.
  intros H. unfold erase. destruct (mObjects w !! pos) as [o|] eqn:E.
  - eexists; reflexivity.
  - apply lookup_ge_None in E. lia.
Qed.

(** *** The registration invariant *)

Lemma registered_count w :
  registered w -> Z.of_nat (length (mObjects w)) = live_count w.
Proof.
  intros [Hperm _]. unfold live_count, size. f_equal.
  apply Permutation_length in Hperm. rewrite !length_fmap in Hperm. exact Hperm.
Qed.

Lemma registered_pushBack object w :
  registered w -> valid_object object -> registered (pushBack object w).
Proof.
  intros [Hperm Hall] Hv. split.
  - rewrite pushBack_mObjects, pushBack_array. unfold valid_object in Hv. rewrite Hv.
    rewrite !fmap_app. simpl. rewrite Hperm. reflexivity.
  - rewrite pushBack_mObjects. apply Forall_app. split; [exact Hall|].
    constructor; [exact Hv|constructor].
Qed.

Lemma registered_erase pos w next w' :
  registered w -> erase pos w = Some (next, w') -> registered w'.
Proof.
  intros [Hperm Hall] He.
  destruct (erase_Some _ _ _ _ He) as (o & Ho & _ & Hreg & _ & _ & Hctx).
  assert (Hv : valid_object o) by (eapply Forall_lookup_1; eassumption).
  unfold valid_object in Hv. rewrite Hv in Hctx.
  split.
  - rewrite Hreg, Hctx.
    assert (Hin : address (getBulletBody o)
                  ∈ address <$> getCollisionObjectArray (mWorld_obj w)).
    { rewrite <- Hperm. apply list_elem_of_fmap. exists o. split; [reflexivity|].
      eapply list_elem_of_lookup_2. exact Ho. }
    pose proof (removeCollisionObject_registered _ _ Hin) as Hrem.
    apply (Permutation_cons_inv (a := address (getBulletBody o))).
    rewrite <- Hrem, <- Hperm.
    rewrite (delete_Permutation _ _ _ Ho) at 2. reflexivity.
  - rewrite Hreg. rewrite delete_take_drop. apply Forall_app. split.
    + apply Forall_take. exact Hall.
    + apply Forall_drop. exact Hall.
Qed.

Lemma populated_registered w : populated w -> registered w.
Proof.
  induction 1 as [a1 a2 a3 a4 a5|object w _ IH Hv|pos w next w' _ IH He].
  - split; [reflexivity|constructor].
  - apply registered_pushBack; assumption.
  - eapply registered_erase; eassumption.
Qed.

(** C1.  Registration invariant: in every world reached from a fresh one by
    [pushBack] calls on valid (rigid or soft) objects and [erase] calls at
    valid positions, the registry holds as many objects as the simulation
    context reports live.  From such a world, [pushBack] appends to the
    registry and registers with the context, through the rigid call for a
    rigid object and the soft call otherwise; [erase] at a valid position
    unregisters and takes exactly one entry out of both. *)
Theorem registration_invariant (w : DynamicsWorld) :
  populated w ->
  Z.of_nat (length (getObjects w)) = live_count w
  /\ (forall object, valid_object object ->
        getObjects (pushBack object w) = getObjects w ++ [object]
        /\ live_count (pushBack object w) = (live_count w + 1)%Z
        /\ emitted w (pushBack object w) =
             [EvPushBack (address (getBulletBody object));
              if isRigidBody object
              then EvAddRigidBody (address (getBulletBody object))
              else EvAddSoftBody (address (getBulletBody object))])
  /\ (forall pos, pos < length (getObjects w) ->
        exists object w',
          getObjects w !! pos = Some object
          /\ erase pos w = Some (pos, w')
          /\ length (getObjects w') + 1 = length (getObjects w)
          /\ (live_count w' + 1)%Z = live_count w
          /\ emitted w w' =
               [if isRigidBody object
                then EvRemoveRigidBody (address (getBulletBody object))
                else EvRemoveSoftBody (address (getBulletBody object));
                EvErase pos]).
Proof.
  intros Hpop. pose proof (populated_registered w Hpop) as Hreg.
  split; [apply registered_count; exact Hreg|]. split.
  - intros object Hv. split; [apply pushBack_mObjects|]. split.
    + unfold live_count. rewrite pushBack_array.
      unfold valid_object in Hv. rewrite Hv. unfold size.
      rewrite length_app. simpl. lia.
    + apply emitted_app. rewrite pushBack_trace. f_equal. f_equal.
      unfold valid_object in Hv.
      destruct (isRigidBody object), (isSoftBody object);
        try reflexivity; discriminate.
  - intros pos Hpos. unfold getObjects in *.
    destruct (erase_valid pos w Hpos) as [[next w'] He].
    pose proof (erase_Some _ _ _ _ He) as (o & Ho & -> & Hobjs & _ & Htr & _).
    exists o, w'. split; [exact Ho|]. split; [exact He|].
    assert (Hlen : length (mObjects w') + 1 = length (mObjects w)).
    { rewrite Hobjs, length_delete by (eexists; exact Ho). lia. }
    split; [exact Hlen|]. split.
    + pose proof (registered_count _ (registered_erase _ _ _ _ Hreg He)) as H1.
      pose proof (registered_count _ Hreg) as H2. lia.
    + apply emitted_app. rewrite Htr. f_equal.
      assert (Hv : valid_object o).
      { destruct Hreg as [_ Hall]. eapply Forall_lookup_1; eassumption. }
      unfold valid_object in Hv.
      destruct (isRigidBody o), (isSoftBody o); try reflexivity; discriminate.
Qed.

(** *** erase *)

(** C5.  For every valid position [pos], [erase] first deals with the
    simulation context and only then removes the element from the registry.
    When the object at [pos] is rigid or soft it is unregistered from the
    context, by the rigid call if the object says it is rigid and by the
    soft call otherwise, while the registry still holds it.  Exactly one
    element leaves the registry, the others keep their order, and the
    position returned refers to the element that followed [pos], or is
    [end()] if [pos] was last. *)
Theorem erase_unregisters_then_removes (pos : Iter) (w : DynamicsWorld)
    (object : CollisionObject) :
  getObjects w !! pos = Some object ->
  exists next w1 w',
    erase pos w = Some (next, w')
    (* the unregistration comes first ... *)
    /\ getObjects w1 = getObjects w
    /\ (valid_object object ->
        mWorld_obj w1 = removeCollisionObject (getBulletBody object) (mWorld_obj w)
        /\ emitted w w1 =
             [if isRigidBody object
              then EvRemoveRigidBody (address (getBulletBody object))
              else EvRemoveSoftBody (address (getBulletBody object))])
    (* ... the removal from the registry second *)
    /\ w' = mObjects_erase pos w1
    /\ emitted w w' = emitted w w1 ++ [EvErase pos]
    (* exactly one element is removed *)
    /\ getObjects w' = delete pos (getObjects w)
    /\ length (getObjects w') + 1 = length (getObjects w)
    /\ (forall i, i < pos -> getObjects w' !! i = getObjects w !! i)
    /\ (forall i, pos <= i -> getObjects w' !! i = getObjects w !! S i)
    (* the returned position *)
    /\ getObjects w' !! next = getObjects w !! S pos
    /\ (S pos = length (getObjects w) -> next = end_ w').
Proof.
  unfold getObjects, valid_object. intros Ho.
  set (w1 := if isRigidBody object
             then mWorld_removeRigidBody (toBulletRigidBody object) w
             else if isSoftBody object
                  then mWorld_removeSoftBody (toBulletSoftBody object) w
                  else w).
  exists pos, w1, (mObjects_erase pos w1). split.
  { unfold erase. rewrite Ho. reflexivity. }
  assert (Hlen : length (delete pos (mObjects w)) + 1 = length (mObjects w)).
  { rewrite length_delete by (eexists; exact Ho).
    apply lookup_lt_Some in Ho. lia. }
  assert (Hobjs : mObjects w1 = mObjects w).
  { subst w1. destruct (isRigidBody object), (isSoftBody object); reflexivity. }
  assert (Htr : exists evs, trace w1 = trace w ++ evs).
  { subst w1. destruct (isRigidBody object), (isSoftBody object);
      try (eexists; reflexivity). exists []. symmetry. apply app_nil_r. }
  split; [exact Hobjs|]. split.
  { intros Hv. subst w1.
    destruct (isRigidBody object), (isSoftBody object); try discriminate;
      (split; [reflexivity|apply emitted_app; reflexivity]). }
  split; [reflexivity|]. split.
  { destruct Htr as [evs Htr]. rewrite (emitted_app w w1 evs Htr).
    apply emitted_app. simpl. rewrite Htr, <- app_assoc. reflexivity. }
  simpl. rewrite Hobjs. split; [reflexivity|]. split; [exact Hlen|].
  split; [intros i Hi; apply list_lookup_delete_lt; exact Hi|].
  split; [intros i Hi; apply list_lookup_delete_ge; exact Hi|].
  split; [apply list_lookup_delete_ge; lia|].
  intros Hlast. unfold end_. simpl. rewrite Hobjs. lia.
Qed.

(** C10.  An object that claims to be neither rigid nor soft is appended to
    the registry by [pushBack] without any call to the simulation context;
    erasing it later, from whatever position it then has, removes it from
    the registry without any unregistration call.  [pushBack] always
    returns and [erase] has a result. *)
Theorem untyped_object_bypasses_context (object : CollisionObject)
    (w : DynamicsWorld) :
  isRigidBody object = false ->
  isSoftBody object = false ->
  getObjects (pushBack object w) = getObjects w ++ [object]
  /\ mWorld_obj (pushBack object w) = mWorld_obj w
  /\ emitted w (pushBack object w) = [EvPushBack (address (getBulletBody object))]
  /\ (forall pos later,
        getObjects later !! pos = Some object ->
        exists w',
          erase pos later = Some (pos, w')
          /\ mWorld_obj w' = mWorld_obj later
          /\ emitted later w' = [EvErase pos]
          /\ getObjects w' = delete pos (getObjects later)).
Proof.
  intros Hr Hs. unfold getObjects. split; [apply pushBack_mObjects|].
  split; [unfold pushBack; rewrite Hr, Hs; reflexivity|].
  split; [apply emitted_app; rewrite pushBack_trace, Hr, Hs; reflexivity|].
  intros pos later Ho. eexists. unfold erase. rewrite Ho, Hr, Hs.
  split; [reflexivity|]. simpl. split; [reflexivity|].
  split; [apply emitted_app; reflexivity|reflexivity].
Qed.

(** *** The destructor *)

Lemma create_owns_all a1 a2 a3 a4 a5 : owns_all (create a1 a2 a3 a4 a5).
Proof. repeat split. Qed.

(** C4, as the code has it.  When a world whose five owning pointers are
    set is destroyed, the broadphase, the collision configuration, the
    dispatcher, the simulation context and the constraint solver are
    deleted, in this order: the simulation context goes after three of its
    dependencies and before the constraint solver. *)
Theorem destructor_order (w : DynamicsWorld) :
  owns_all w ->
  destructor w =
    [EvDelete Broadphase; EvDelete CollisionConfiguration; EvDelete Dispatcher;
     EvDelete SimulationContext; EvDelete ConstraintSolver]
  /\ (forall m, deleted m (destructor w))
  /\ deleted_before Broadphase SimulationContext (destructor w)
  /\ deleted_before CollisionConfiguration SimulationContext (destructor w)
  /\ deleted_before Dispatcher SimulationContext (destructor w)
  /\ deleted_before SimulationContext ConstraintSolver (destructor w).
Proof.
  intros (Hb & Hc & Hd & Hw & Hs).
  assert (Heq : destructor w =
    [EvDelete Broadphase; EvDelete CollisionConfiguration; EvDelete Dispatcher;
     EvDelete SimulationContext; EvDelete ConstraintSolver]).
  { unfold destructor, delete_if_set. rewrite Hb, Hc, Hd, Hw, Hs. reflexivity. }
  rewrite Heq. split; [reflexivity|]. split.
  - intros []; eexists; reflexivity.
  - repeat split; do 2 eexists; (split; [reflexivity|split; [reflexivity|lia]]).
Qed.

(** *** The activation loop *)

Lemma woken_awake b :
  is_Some (activation_path b) -> awake (woken b) = true.
Proof. unfold woken. intros [p ->]. reflexivity. Qed.

Lemma woken_address b : address (woken b) = address b.
Proof. unfold woken. destruct (activation_path b); reflexivity. Qed.

Lemma partly_woken_lookup (arr : list btCollisionObject) n :
  ((woken <$> take n arr) ++ drop n arr) !! n = arr !! n.
Proof.
  destruct (decide (n <= length arr)) as [Hle|Hgt].
  - rewrite lookup_app_r; rewrite length_fmap, length_take, Nat.min_l by lia; [|lia].
    rewrite Nat.sub_diag, lookup_drop. f_equal. lia.
  - rewrite take_ge, drop_ge, app_nil_r by lia.
    rewrite !(proj2 (lookup_ge_None _ _)); [reflexivity|lia|rewrite length_fmap; lia].
Qed.

Lemma partly_woken_insert (arr : list btCollisionObject) n b x :
  arr !! n = Some b ->
  <[n := x]> ((woken <$> take n arr) ++ drop n arr)
  = (woken <$> take n arr) ++ x :: drop (S n) arr.
Proof.
  intros Hb. pose proof (lookup_lt_Some _ _ _ Hb) as Hlt.
  rewrite insert_app_r_alt; rewrite length_fmap, length_take, Nat.min_l by lia; [|lia].
  rewrite Nat.sub_diag, (drop_S _ _ _ Hb). reflexivity.
Qed.

(** After [n] turns the first [n] bodies have been dealt with, each
    activation has been recorded, and nothing else has changed. *)
Lemma activate_turns n w :
  n <= length (getCollisionObjectArray (mWorld_obj w)) ->
  let w' := fold_left (fun acc i => activate_body i acc) (seq 0 n) w in
  same_members w w'
  /\ mNumObjects w' = mNumObjects w
  /\ getCollisionObjectArray (mWorld_obj w') =
       (woken <$> take n (getCollisionObjectArray (mWorld_obj w)))
       ++ drop n (getCollisionObjectArray (mWorld_obj w))
  /\ trace w' =
       trace w ++ omap activation_event (take n (getCollisionObjectArray (mWorld_obj w))).
Proof.
  set (arr := getCollisionObjectArray (mWorld_obj w)).
  induction n as [|n IH]; intros Hle; cbv zeta.
  - simpl. rewrite app_nil_r. repeat split; reflexivity.
  - rewrite seq_S, fold_left_app. simpl.
    destruct (IH ltac:(lia)) as (Hsame & Hnum & Harr & Htr).
    set (wn := fold_left (fun acc i => activate_body i acc) (seq 0 n) w) in *.
    destruct (lookup_lt_is_Some_2 arr n ltac:(lia)) as [b Hb].
    rewrite (take_S_r _ _ _ Hb), fmap_app, omap_app, <- !app_assoc. simpl.
    unfold activate_body. rewrite Harr, partly_woken_lookup. fold arr. rewrite Hb.
    unfold btRigidBody_upcast, btSoftBody_upcast, activation_event, woken,
      activation_path.
    destruct Hsame as (H1 & H2 & H3 & H4 & H5 & H6).
    destruct (m_internalType b) eqn:Hty; simpl;
      rewrite ?Harr, ?(partly_woken_insert _ _ _ _ Hb), ?(drop_S _ _ _ Hb),
        ?Htr, ?app_nil_r, <- ?app_assoc;
      repeat split; assumption || reflexivity.
Qed.

(** *** update, case by case *)

Lemma visited_all w :
  (live_count w < UINT32_MOD)%Z ->
  visited w = getCollisionObjectArray (mWorld_obj w).
Proof.
  intros Hlt. unfold visited.
  rewrite to_uint32_small by (split; [apply size_nonneg|exact Hlt]).
  unfold live_count, size. rewrite Nat2Z.id. apply firstn_all.
Qed.

Lemma after_activation_all w :
  (live_count w < UINT32_MOD)%Z ->
  after_activation w = woken <$> getCollisionObjectArray (mWorld_obj w).
Proof.
  intros Hlt. unfold after_activation. rewrite (visited_all w Hlt).
  rewrite to_uint32_small by (split; [apply size_nonneg|exact Hlt]).
  unfold live_count, size. rewrite Nat2Z.id, drop_all. apply app_nil_r.
Qed.

Lemma numObjects_in_range w :
  Z.to_nat (to_uint32 (live_count w))
  <= length (getCollisionObjectArray (mWorld_obj w)).
Proof.
  unfold to_uint32, live_count, size, UINT32_MOD.
  pose proof (Z.mod_le (Z.of_nat (length (getCollisionObjectArray (mWorld_obj w))))
                (2 ^ 32) ltac:(lia) ltac:(lia)).
  pose proof (Z.mod_pos_bound
                (Z.of_nat (length (getCollisionObjectArray (mWorld_obj w))))
                (2 ^ 32) ltac:(lia)).
  lia.
Qed.

Lemma update_cases frameRate w :
  update frameRate w =
  if reaches_count_update w then
    mWorld_stepSimulation Float32.one 10 (fixedTimeStep_of frameRate)
      (set_mNumObjects (to_uint32 (live_count w))
         (if runs_activation_pass w
          then activate_all (to_uint32 (live_count w)) w
          else w))
  else w.
Proof.
  unfold update, reaches_count_update, runs_activation_pass, live_count.
  destruct (mNumObjects w =? _)%Z; simpl; [reflexivity|].
  destruct (_ <=? 0)%Z; reflexivity.
Qed.

Lemma runs_activation_pass_reaches w :
  runs_activation_pass w = true -> reaches_count_update w = true.
Proof.
  unfold runs_activation_pass, reaches_count_update.
  destruct (mNumObjects w =? _)%Z, (_ <=? 0)%Z; simpl; congruence.
Qed.

Lemma update_mNumObjects frameRate w :
  mNumObjects (update frameRate w) =
  if reaches_count_update w then to_uint32 (live_count w) else mNumObjects w.
Proof.
  rewrite update_cases. destruct (reaches_count_update w); reflexivity.
Qed.

Lemma update_trace frameRate w :
  trace (update frameRate w) =
  trace w
  ++ (if runs_activation_pass w then omap activation_event (visited w) else [])
  ++ (if reaches_count_update w
      then [EvStepSimulation Float32.one 10 (fixedTimeStep_of frameRate)]
      else []).
Proof.
  rewrite update_cases.
  destruct (runs_activation_pass w) eqn:Hact.
  - rewrite (runs_activation_pass_reaches w Hact). simpl.
    destruct (activate_turns _ w (numObjects_in_range w)) as (_ & _ & _ & Htr).
    unfold activate_all. rewrite Htr, <- app_assoc. reflexivity.
  - destruct (reaches_count_update w); simpl; rewrite ?app_nil_r; reflexivity.
Qed.

Lemma update_array frameRate w :
  getCollisionObjectArray (mWorld_obj (update frameRate w)) =
  if reaches_count_update w then
    integrate Float32.one 10 (fixedTimeStep_of frameRate)
      (if runs_activation_pass w then after_activation w
       else getCollisionObjectArray (mWorld_obj w))
  else getCollisionObjectArray (mWorld_obj w).
Proof.
  rewrite update_cases.
  destruct (runs_activation_pass w) eqn:Hact.
  - rewrite (runs_activation_pass_reaches w Hact). simpl.
    destruct (activate_turns _ w (numObjects_in_range w)) as (_ & _ & Harr & _).
    unfold activate_all. rewrite Harr. reflexivity.
  - destruct (reaches_count_update w); reflexivity.
Qed.

Lemma update_same_members frameRate w : same_members w (update frameRate w).
Proof.
  rewrite update_cases.
  destruct (reaches_count_update w); [|repeat split].
  destruct (runs_activation_pass w); [|repeat split].
  destruct (activate_turns _ w (numObjects_in_range w)) as (Hsame & _).
  exact Hsame.
Qed.

Lemma omap_activation_no_step (arr : list btCollisionObject) :
  filter is_step (omap activation_event arr) = [].
Proof.
  induction arr as [|b rest IH]; [reflexivity|]. simpl.
  unfold activation_event at 1. destruct (activation_path b); simpl; exact IH.
Qed.

Lemma live_count_uint32 w :
  (live_count w <= INT_MAX)%Z -> to_uint32 (live_count w) = live_count w.
Proof.
  intros H. apply to_uint32_small. split; [apply size_nonneg|].
  unfold INT_MAX, UINT32_MOD in *. lia.
Qed.

(** *** The counter *)

(** C2, as the code has it.  After [update] returns, the last-observed
    count equals the live count queried at the start of the call, whether
    or not the count had changed, in every call but those made when the live
    count is zero and the last-observed count is not: such a call returns
    before the counter is written and leaves it as it was. *)
Theorem update_records_live_count (frameRate : Float32.float) (w : DynamicsWorld) :
  (live_count w <= INT_MAX)%Z ->
  mNumObjects (update frameRate w) =
  if (live_count w =? 0)%Z && negb (mNumObjects w =? 0)%Z
  then mNumObjects w
  else live_count w.
Proof.
  intros Hint. rewrite update_mNumObjects. unfold reaches_count_update.
  rewrite (live_count_uint32 w Hint).
  destruct (live_count w =? 0)%Z eqn:Hz.
  - apply Z.eqb_eq in Hz. rewrite Hz. simpl.
    destruct (mNumObjects w =? 0)%Z eqn:Hn; simpl; [|reflexivity].
    apply Z.eqb_eq in Hn. congruence.
  - apply Z.eqb_neq in Hz. pose proof (size_nonneg (getCollisionObjectArray (mWorld_obj w))).
    unfold live_count in *.
    replace (size (getCollisionObjectArray (mWorld_obj w)) <=? 0)%Z with false
      by (symmetry; apply Z.leb_gt; lia).
    rewrite andb_false_r. reflexivity.
Qed.

(** C3.  A call of [update] made when the simulation context reports no
    live object while the last-observed count is not zero does nothing: the
    world it returns is the world it was given, so no body was activated,
    the context was not stepped and the trace has no new entry. *)
Theorem update_noop_on_emptied_world (frameRate : Float32.float) (w : DynamicsWorld) :
  live_count w = 0%Z ->
  mNumObjects w <> live_count w ->
  update frameRate w = w /\ emitted w (update frameRate w) = [].
Proof.
  intros Hz Hne.
  assert (Hupd : update frameRate w = w).
  { rewrite update_cases. unfold reaches_count_update. rewrite Hz in *.
    change (to_uint32 0) with 0%Z.
    replace (mNumObjects w =? 0)%Z with false
      by (symmetry; apply Z.eqb_neq; exact Hne).
    reflexivity. }
  split; [exact Hupd|]. rewrite Hupd. apply emitted_app.
  symmetry. apply app_nil_r.
Qed.

(** *** Activation on change *)

(** C6.  A call of [update] made when the live count is not zero and
    differs from the last-observed count activates every body of the
    context's array, in array order and before the step: a rigid body
    through the rigid-body call, a soft body through the soft-body call.
    The array handed to the step holds each of them awake. *)
Theorem update_activates_on_change (frameRate : Float32.float) (w : DynamicsWorld) :
  (live_count w <= INT_MAX)%Z ->
  live_count w <> 0%Z ->
  mNumObjects w <> live_count w ->
  emitted w (update frameRate w) =
    omap activation_event (getCollisionObjectArray (mWorld_obj w))
    ++ [EvStepSimulation Float32.one 10 (fixedTimeStep_of frameRate)]
  /\ (forall i b,
        getCollisionObjectArray (mWorld_obj w) !! i = Some b ->
        (m_internalType b = CO_RIGID_BODY ->
         EvActivate RigidPath (address b) ∈ emitted w (update frameRate w))
        /\ (m_internalType b = CO_SOFT_BODY ->
            EvActivate SoftPath (address b) ∈ emitted w (update frameRate w)))
  /\ getCollisionObjectArray (mWorld_obj (update frameRate w)) =
       integrate Float32.one 10 (fixedTimeStep_of frameRate)
         (woken <$> getCollisionObjectArray (mWorld_obj w))
  /\ (forall i b,
        getCollisionObjectArray (mWorld_obj w) !! i = Some b ->
        m_internalType b = CO_RIGID_BODY \/ m_internalType b = CO_SOFT_BODY ->
        exists b',
          (woken <$> getCollisionObjectArray (mWorld_obj w)) !! i = Some b'
          /\ address b' = address b /\ awake b' = true).
Proof.
  intros Hint Hnz Hne.
  assert (Hlt : (live_count w < UINT32_MOD)%Z)
    by (unfold INT_MAX, UINT32_MOD in *; lia).
  assert (Hact : runs_activation_pass w = true).
  { unfold runs_activation_pass. rewrite (live_count_uint32 w Hint).
    pose proof (size_nonneg (getCollisionObjectArray (mWorld_obj w))).
    unfold live_count in *.
    replace (mNumObjects w =? _)%Z with false by (symmetry; apply Z.eqb_neq; exact Hne).
    replace (_ <=? 0)%Z with false by (symmetry; apply Z.leb_gt; lia).
    reflexivity. }
  pose proof (runs_activation_pass_reaches w Hact) as Hreach.
  assert (Hem : emitted w (update frameRate w) =
    omap activation_event (getCollisionObjectArray (mWorld_obj w))
    ++ [EvStepSimulation Float32.one 10 (fixedTimeStep_of frameRate)]).
  { apply emitted_app. rewrite update_trace, Hact, Hreach, (visited_all w Hlt).
    reflexivity. }
  split; [exact Hem|]. split; [|split].
  - intros i b Hb. rewrite Hem.
    split; intros Hty; apply elem_of_app; left;
      apply list_elem_of_omap; exists b;
      (split; [eapply list_elem_of_lookup_2; exact Hb|]);
      unfold activation_event, activation_path; rewrite Hty; reflexivity.
  - rewrite update_array, Hact, Hreach, (after_activation_all w Hlt). reflexivity.
  - intros i b Hb Hty. exists (woken b). split.
    + rewrite list_lookup_fmap, Hb. reflexivity.
    + split; [apply woken_address|]. apply woken_awake.
      unfold activation_path. destruct Hty as [-> | ->]; eexists; reflexivity.
Qed.

(** *** Stepping *)

Lemma max_one_not_zero (x : Float32.float) :
  Float32.is_zero (Float32.max Float32.one x) = false.
Proof.
  unfold Float32.max, Float32.gt.
  destruct (SFcompare Float32.one x) as [[]|] eqn:Hc; try reflexivity;
    destruct x as [s|s| |s m e]; try reflexivity; discriminate.
Qed.

Lemma max_one_floor (x : Float32.float) :
  Float32.is_nan x = true \/ Float32.le Float32.one (Float32.max Float32.one x) = true.
Proof.
  unfold Float32.max, Float32.gt, Float32.le, SFleb.
  destruct (SFcompare Float32.one x) as [[]|] eqn:Hc.
  - right. rewrite Hc. reflexivity.
  - right. rewrite Hc. reflexivity.
  - right. reflexivity.
  - left. destruct x as [s|s| |s m e]; try reflexivity; simpl in Hc;
      try discriminate; destruct s; discriminate.
Qed.

(** C7.  A call of [update] steps the simulation context exactly when it
    gets past the count-changed block, and then once, with time horizon
    [1.0], at most [10] sub-steps and sub-step duration [1.0 / max( 1.0,
    frameRate )].  The divisor is never zero; unless the frame rate is a
    NaN it is at least [1.0]; for a frame rate of [0.0] (of either sign) the
    sub-step duration is exactly [1.0]. *)
Theorem update_step_parameters (frameRate : Float32.float) (w : DynamicsWorld) :
  filter is_step (emitted w (update frameRate w)) =
    (if reaches_count_update w
     then [EvStepSimulation Float32.one 10
             (Float32.div Float32.one (Float32.max Float32.one frameRate))]
     else [])
  /\ (exists acts,
        emitted w (update frameRate w) =
        acts ++ filter is_step (emitted w (update frameRate w))
        /\ filter is_step acts = [])
  /\ Float32.is_zero (Float32.max Float32.one frameRate) = false
  /\ (Float32.is_nan frameRate = true
      \/ Float32.le Float32.one (Float32.max Float32.one frameRate) = true)
  /\ fixedTimeStep_of Float32.zero = Float32.one
  /\ fixedTimeStep_of (S754_zero true) = Float32.one.
Proof.
  assert (Hem : emitted w (update frameRate w) =
    (if runs_activation_pass w then omap activation_event (visited w) else [])
    ++ (if reaches_count_update w
        then [EvStepSimulation Float32.one 10 (fixedTimeStep_of frameRate)]
        else [])).
  { apply emitted_app. apply update_trace. }
  assert (Hacts : filter is_step
            (if runs_activation_pass w then omap activation_event (visited w) else [])
          = []).
  { destruct (runs_activation_pass w); [apply omap_activation_no_step|reflexivity]. }
  assert (Hsteps : filter is_step (emitted w (update frameRate w)) =
    (if reaches_count_update w
     then [EvStepSimulation Float32.one 10 (fixedTimeStep_of frameRate)]
     else [])).
  { rewrite Hem, filter_app, Hacts. destruct (reaches_count_update w); reflexivity. }
  split; [exact Hsteps|]. split.
  { eexists. split; [|exact Hacts]. rewrite Hsteps. exact Hem. }
  split; [apply max_one_not_zero|]. split; [apply max_one_floor|].
  split; reflexivity.
Qed.

(** *** Two calls in a row *)

Lemma no_pass_no_activation frameRate w :
  runs_activation_pass w = false ->
  filter is_activation (emitted w (update frameRate w)) = []
  /\ getCollisionObjectArray (mWorld_obj (update frameRate w)) =
     if reaches_count_update w then
       integrate Float32.one 10 (fixedTimeStep_of frameRate)
         (getCollisionObjectArray (mWorld_obj w))
     else getCollisionObjectArray (mWorld_obj w).
Proof.
  intros Hno. split.
  - rewrite (emitted_app _ _ _ (update_trace frameRate w)), Hno.
    destruct (reaches_count_update w); reflexivity.
  - rewrite update_array, Hno. reflexivity.
Qed.

(** C8.  When [update] is called twice and the live population at the
    second call is the one the first call saw, the second call never runs
    the activation pass: it emits no activation and hands the bodies to the
    step as they are.  The pass can run on the first call only, and it runs
    on neither call if the live count already equalled the last-observed
    count before the first call.  [between] is the world at the second
    call: the result of the first call, or any world with the same counter
    and the same population. *)
Theorem second_update_skips_activation (fr1 fr2 : Float32.float)
    (w between : DynamicsWorld) :
  mNumObjects between = mNumObjects (update fr1 w) ->
  live_count between = live_count w ->
  runs_activation_pass between = false
  /\ filter is_activation (emitted between (update fr2 between)) = []
  /\ (mNumObjects w = to_uint32 (live_count w) ->
      runs_activation_pass w = false
      /\ filter is_activation (emitted w (update fr1 w)) = []).
Proof.
  intros Hnum Hlive.
  assert (Hno : runs_activation_pass between = false).
  { unfold runs_activation_pass. rewrite Hnum, Hlive, update_mNumObjects.
    unfold reaches_count_update.
    destruct (mNumObjects w =? to_uint32 (live_count w))%Z eqn:Heq; simpl.
    - rewrite Z.eqb_refl. reflexivity.
    - destruct (to_uint32 (live_count w) <=? 0)%Z; simpl.
      + apply andb_false_r.
      + rewrite Z.eqb_refl. reflexivity. }
  split; [exact Hno|]. split; [apply no_pass_no_activation; exact Hno|].
  intros Heq.
  assert (Hno1 : runs_activation_pass w = false).
  { unfold runs_activation_pass. rewrite Heq, Z.eqb_refl. reflexivity. }
  split; [exact Hno1|apply no_pass_no_activation; exact Hno1].
Qed.

(** *** getNumObjects *)

Lemma erase_mNumObjects pos w next w' :
  erase pos w = Some (next, w') -> mNumObjects w' = mNumObjects w.
Proof.
  intros He. destruct (erase_Some _ _ _ _ He) as (_ & _ & _ & _ & H & _). exact H.
Qed.

Lemma run_last_recorded cs w w' :
  run cs w = Some w' ->
  getNumObjects w' = last_recorded cs w (getNumObjects w).
Proof.
  revert w. induction cs as [|c rest IH]; intros w; simpl.
  - intros [= <-]. reflexivity.
  - destruct (call c w) as [w1|] eqn:Hc; [|discriminate].
    intros Hrun. rewrite (IH _ Hrun). f_equal. unfold getNumObjects.
    destruct c as [object|pos|frameRate]; simpl in Hc.
    + injection Hc as <-. apply pushBack_mNumObjects.
    + destruct (erase pos w) as [[next w2]|] eqn:He; [|discriminate].
      simpl in Hc. injection Hc as <-. eapply erase_mNumObjects. exact He.
    + injection Hc as <-. apply update_mNumObjects.
Qed.

(** C9.  [pushBack] and [erase] never write the last-observed count.
    [getNumObjects] is [0] on a fresh world, and after any sequence of
    calls it is still [0] if no [update] got as far as the count update, and
    otherwise the live count seen by the latest [update] that did, however
    many objects were appended or erased since. *)
Theorem getNumObjects_follows_updates :
  (forall object w, getNumObjects (pushBack object w) = getNumObjects w)
  /\ (forall pos w next w',
        erase pos w = Some (next, w') -> getNumObjects w' = getNumObjects w)
  /\ (forall a1 a2 a3 a4 a5, getNumObjects (create a1 a2 a3 a4 a5) = 0%Z)
  /\ (forall cs a1 a2 a3 a4 a5 w',
        run cs (create a1 a2 a3 a4 a5) = Some w' ->
        getNumObjects w' = last_recorded cs (create a1 a2 a3 a4 a5) 0).
Proof.
  split; [exact pushBack_mNumObjects|].
  split; [exact erase_mNumObjects|].
  split; [reflexivity|].
  intros cs a1 a2 a3 a4 a5 w' Hrun. apply (run_last_recorded _ _ _ Hrun).
Qed.

(** ** Further properties of the members and factories *)

(** *** Appending *)

Lemma pushBack_all_app objects1 objects2 w :
  pushBack_all (objects1 ++ objects2) w = pushBack_all objects2 (pushBack_all objects1 w).
Proof. unfold pushBack_all. apply fold_left_app. Qed.

Lemma pushBack_all_array objects w :
  Forall valid_object objects ->
  getCollisionObjectArray (mWorld_obj (pushBack_all objects w)) =
  getCollisionObjectArray (mWorld_obj w) ++ (getBulletBody <$> objects).
Proof.
  revert w. induction objects as [|o rest IH]; intros w Hall; simpl.
  - symmetry. apply app_nil_r.
  - inversion Hall as [|? ? Hv Hrest]; subst.
    fold (pushBack_all rest (pushBack o w)). rewrite (IH _ Hrest), pushBack_array.
    unfold valid_object in Hv. rewrite Hv, <- app_assoc. reflexivity.
Qed.

Lemma pushBack_all_mObjects objects w :
  mObjects (pushBack_all objects w) = mObjects w ++ objects.
Proof.
  revert w. induction objects as [|o rest IH]; intros w; simpl.
  - symmetry. apply app_nil_r.
  - fold (pushBack_all rest (pushBack o w)).
    rewrite IH, pushBack_mObjects, <- app_assoc. reflexivity.
Qed.

Lemma pushBack_all_mNumObjects objects w :
  mNumObjects (pushBack_all objects w) = mNumObjects w.
Proof.
  revert w. induction objects as [|o rest IH]; intros w; simpl; [reflexivity|].
  fold (pushBack_all rest (pushBack o w)). rewrite IH. apply pushBack_mNumObjects.
Qed.

(** X1.  Insertion order: after any batch of [pushBack] calls the registry
    is the old registry followed by the batch, in the order of the calls,
    whatever the objects claim to be; the counter is not touched.  When
    every object of the batch is rigid or soft, the context's array grows
    by their bodies in the same order. *)
Theorem pushBack_all_preserves_order (objects : list CollisionObject)
    (w : DynamicsWorld) :
  getObjects (pushBack_all objects w) = getObjects w ++ objects
  /\ end_ (pushBack_all objects w) = end_ w + length objects
  /\ getNumObjects (pushBack_all objects w) = getNumObjects w
  /\ (Forall valid_object objects ->
      getCollisionObjectArray (mWorld_obj (pushBack_all objects w)) =
      getCollisionObjectArray (mWorld_obj w) ++ (getBulletBody <$> objects)).
Proof.
  unfold getObjects, end_, getNumObjects.
  split; [apply pushBack_all_mObjects|].
  split; [rewrite pushBack_all_mObjects, length_app; reflexivity|].
  split; [apply pushBack_all_mNumObjects|apply pushBack_all_array].
Qed.

Lemma last_object_ref_pushBack object world :
  last_object_ref (pushBack object world) = Some object.
Proof.
  unfold last_object_ref. rewrite pushBack_mObjects, length_app. simpl.
  rewrite lookup_app_r by lia.
  replace (length (mObjects world) + 1 - 1 - length (mObjects world)) with 0 by lia.
  reflexivity.
Qed.

(** X2.  Each of the six factories hands back the very object it has just
    registered, whatever the registry held before: the reference it returns
    is defined, refers to the new object, and that object sits at what was
    [end()] before the call. *)
Theorem factories_return_new_object (world : DynamicsWorld)
    (object : CollisionObject) :
  createRigidBox world object = (Some object, pushBack object world)
  /\ createRigidCylinder world object = (Some object, pushBack object world)
  /\ createRigidHull world object = (Some object, pushBack object world)
  /\ createRigidMesh world object = (Some object, pushBack object world)
  /\ createRigidSphere world object = (Some object, pushBack object world)
  /\ createRigidTerrain world object = (Some object, pushBack object world)
  /\ getObjects (pushBack object world) !! end_ world = Some object
  /\ end_ (pushBack object world) = S (end_ world).
Proof.
  unfold createRigidBox, createRigidCylinder, createRigidHull, createRigidMesh,
    createRigidSphere, createRigidTerrain.
  rewrite last_object_ref_pushBack.
  repeat (split; [reflexivity|]).
  unfold getObjects, end_. rewrite pushBack_mObjects. split.
  - rewrite lookup_app_r by lia. rewrite Nat.sub_diag. reflexivity.
  - rewrite length_app. simpl. lia.
Qed.

(** *** The owning pointers *)

Lemma pushBack_member_ptr m object w :
  member_ptr m (pushBack object w) = member_ptr m w.
Proof.
  unfold pushBack.
  destruct m, (isRigidBody object), (isSoftBody object); reflexivity.
Qed.

Lemma erase_member_ptr m pos w next w' :
  erase pos w = Some (next, w') -> member_ptr m w' = member_ptr m w.
Proof.
  unfold erase. destruct (mObjects w !! pos) as [o|]; [|discriminate].
  intros [= <- <-].
  destruct m, (isRigidBody o), (isSoftBody o); reflexivity.
Qed.

Lemma update_member_ptr m frameRate w :
  member_ptr m (update frameRate w) = member_ptr m w.
Proof.
  destruct (update_same_members frameRate w) as (H1 & H2 & H3 & H4 & H5 & _).
  destruct m; simpl; assumption.
Qed.

Lemma run_member_ptr m cs w w' :
  run cs w = Some w' -> member_ptr m w' = member_ptr m w.
Proof.
  revert w. induction cs as [|c rest IH]; intros w; simpl.
  - intros [= <-]. reflexivity.
  - destruct (call c w) as [w1|] eqn:Hc; [|discriminate].
    intros Hrun. rewrite (IH _ Hrun).
    destruct c as [object|pos|frameRate]; simpl in Hc.
    + injection Hc as <-. apply pushBack_member_ptr.
    + destruct (erase pos w) as [[next w2]|] eqn:He; [|discriminate].
      simpl in Hc. injection Hc as <-. eapply erase_member_ptr. exact He.
    + injection Hc as <-. apply update_member_ptr.
Qed.

(** X3.  No sequence of [pushBack], [erase] and [update] calls touches the
    five owning pointers: on a world built by [create], the accessors keep
    answering the addresses the constructor allocated, and destroying the
    world afterwards deletes all five members, in the destructor's fixed
    order. *)
Theorem calls_keep_owned_members (cs : list Call)
    (aConfiguration aDispatcher aBroadphase aSolver aWorld : nat)
    (w' : DynamicsWorld) :
  run cs (createWorld aConfiguration aDispatcher aBroadphase aSolver aWorld)
    = Some w' ->
  getCollisionConfiguration w' = addr aConfiguration
  /\ getDispatcher w' = addr aDispatcher
  /\ getBroadphase w' = addr aBroadphase
  /\ getSolver w' = addr aSolver
  /\ getWorld w' = addr aWorld
  /\ destructor w' =
       [EvDelete Broadphase; EvDelete CollisionConfiguration; EvDelete Dispatcher;
        EvDelete SimulationContext; EvDelete ConstraintSolver].
Proof.
  intros Hrun.
  pose proof (fun m => run_member_ptr m _ _ _ Hrun) as Hm.
  pose proof (Hm Broadphase) as Hb. pose proof (Hm CollisionConfiguration) as Hc.
  pose proof (Hm Dispatcher) as Hd. pose proof (Hm SimulationContext) as Hw.
  pose proof (Hm ConstraintSolver) as Hs. simpl in Hb, Hc, Hd, Hw, Hs.
  unfold getCollisionConfiguration, getDispatcher, getBroadphase, getSolver,
    getWorld, destructor.
  rewrite Hb, Hc, Hd, Hw, Hs. repeat split; reflexivity.
Qed.

(** X4.  The destructor deletes a member exactly when its pointer is not
    null, and never deletes a member twice, whatever the five pointers
    are. *)
Theorem destructor_guards_null (w : DynamicsWorld) :
  (forall m, deleted m (destructor w) <-> is_null (member_ptr m w) = false)
  /\ NoDup (destructor w)
  /\ length (destructor w) <= 5.
Proof.
  destruct w as [pb pc pd ps pw ctx objs n tr].
  unfold destructor, delete_if_set, deleted. simpl. split; [|split].
  - intros m.
    destruct pb, pc, pd, ps, pw, m; simpl; split; intros H;
      try reflexivity; try discriminate;
      try (eexists; reflexivity); try (destruct H as [? H]; discriminate).
  - destruct pb, pc, pd, ps, pw; simpl;
      repeat (apply NoDup_cons; split;
              [rewrite ?elem_of_cons, elem_of_nil; intuition congruence|]);
      apply NoDup_nil; exact I.
  - destruct pb, pc, pd, ps, pw; simpl; lia.
Qed.

(** *** Erasing *)

Lemma findLinearSearch_None a arr :
  findLinearSearch a arr = None -> a ∉ address <$> arr.
Proof.
  intros Hnone Hin. destruct (findLinearSearch_elem _ _ Hin) as [i Hi]. congruence.
Qed.

Lemma findLinearSearch_last a arr b :
  a ∉ address <$> arr -> address b = a ->
  findLinearSearch a (arr ++ [b]) = Some (length arr).
Proof.
  intros Hnot Hb. induction arr as [|c rest IH]; simpl.
  - rewrite Hb, Nat.eqb_refl. reflexivity.
  - simpl in Hnot. apply not_elem_of_cons in Hnot as [Hne Hrest].
    destruct (Nat.eqb (address c) a) eqn:E.
    + apply Nat.eqb_eq in E. congruence.
    + rewrite (IH Hrest). reflexivity.
Qed.

Lemma removeCollisionObject_after_add b ctx :
  address b ∉ address <$> getCollisionObjectArray ctx ->
  removeCollisionObject b (addCollisionObject b ctx) = ctx.
Proof.
  intros Hnot. destruct ctx as [arr]. simpl in Hnot.
  unfold removeCollisionObject, addCollisionObject. simpl.
  rewrite (findLinearSearch_last _ _ _ Hnot eq_refl). f_equal.
  rewrite delete_take_drop, take_app_length.
  rewrite drop_ge by (rewrite length_app; simpl; lia). apply app_nil_r.
Qed.

(** X5.  Round trip: appending an object whose body the context does not
    hold yet and erasing it again, at the position it was given, brings
    back the registry, the context and the counter as they were; the
    position [erase] returns is the new [end()]. *)
Theorem pushBack_then_erase_restores (object : CollisionObject) (w : DynamicsWorld) :
  address (getBulletBody object) ∉ live_addresses w ->
  exists w',
    erase (end_ w) (pushBack object w) = Some (end_ w', w')
    /\ getObjects w' = getObjects w
    /\ mWorld_obj w' = mWorld_obj w
    /\ getNumObjects w' = getNumObjects w
    /\ emitted w w' =
         emitted w (pushBack object w)
         ++ emitted (pushBack object w) w'.
Proof.
  unfold live_addresses, getObjects, getNumObjects, end_. intros Hnot.
  assert (Hlook : mObjects (pushBack object w) !! length (mObjects w) = Some object).
  { rewrite pushBack_mObjects, lookup_app_r by lia.
    rewrite Nat.sub_diag. reflexivity. }
  destruct (erase (length (mObjects w)) (pushBack object w)) as [[next w']|] eqn:He.
  2:{ unfold erase in He. rewrite Hlook in He. discriminate. }
  destruct (erase_Some _ _ _ _ He) as (o & Ho & -> & Hobjs & Hnum & Htr & Hctx).
  rewrite Hlook in Ho. injection Ho as <-.
  assert (Hreg : mObjects w' = mObjects w).
  { rewrite Hobjs, pushBack_mObjects, delete_take_drop, take_app_length.
    rewrite drop_ge by (rewrite length_app; simpl; lia). apply app_nil_r. }
  exists w'. rewrite Hreg. split; [reflexivity|]. split; [reflexivity|]. split.
  { rewrite Hctx. unfold pushBack.
    destruct (isRigidBody object), (isSoftBody object); simpl; try reflexivity;
      apply (removeCollisionObject_after_add _ _ Hnot). }
  split; [rewrite Hnum; apply pushBack_mNumObjects|].
  rewrite pushBack_trace in Htr.
  rewrite (emitted_app _ _ _ (pushBack_trace object w)).
  rewrite (emitted_app (pushBack object w) w' _
             ltac:(rewrite Htr, pushBack_trace; reflexivity)).
  apply emitted_app. rewrite Htr, <- app_assoc. reflexivity.
Qed.

(** X6.  When the bodies of the context have pairwise distinct addresses,
    erasing a rigid or soft object leaves a context that no longer reports
    its body, still reports every other body, and still has distinct
    addresses. *)
Theorem erase_body_no_longer_live (pos : Iter) (w : DynamicsWorld)
    (object : CollisionObject) (next : Iter) (w' : DynamicsWorld) :
  NoDup (live_addresses w) ->
  getObjects w !! pos = Some object ->
  valid_object object ->
  erase pos w = Some (next, w') ->
  (address (getBulletBody object) ∉ live_addresses w')
  /\ NoDup (live_addresses w')
  /\ (forall a, a <> address (getBulletBody object) ->
        (a ∈ live_addresses w <-> a ∈ live_addresses w')).
Proof.
  unfold live_addresses, getObjects, valid_object. intros Hnd Ho Hv He.
  destruct (erase_Some _ _ _ _ He) as (o & Ho' & _ & _ & _ & _ & Hctx).
  rewrite Ho in Ho'. injection Ho' as <-. rewrite Hv in Hctx. rewrite Hctx.
  unfold removeCollisionObject.
  destruct (findLinearSearch (address (getBulletBody object))
              (getCollisionObjectArray (mWorld_obj w))) as [i|] eqn:Hf; simpl.
  - destruct (findLinearSearch_Some _ _ _ Hf) as (b & Hb & Ha).
    pose proof (delete_Permutation _ _ _ Hb) as Hperm.
    apply (fmap_Permutation address) in Hperm. simpl in Hperm.
    rewrite Ha in Hperm. rewrite Hperm in Hnd.
    apply NoDup_cons in Hnd as [Hnot Hnd']. split; [exact Hnot|].
    split; [exact Hnd'|]. intros a Hne. rewrite Hperm, elem_of_cons. tauto.
  - split; [apply findLinearSearch_None; exact Hf|]. split; [exact Hnd|].
    intros a _. reflexivity.
Qed.

Lemma registered_erase_all n : forall w,
  registered w -> length (mObjects w) = n ->
  exists w',
    run (replicate n (CallErase 0)) w = Some w'
    /\ registered w' /\ mObjects w' = [] /\ mNumObjects w' = mNumObjects w.
Proof.
  induction n as [|n IH]; intros w Hreg Hlen.
  - exists w. simpl. split; [reflexivity|]. split; [exact Hreg|].
    split; [|reflexivity]. apply length_zero_iff_nil. exact Hlen.
  - destruct (erase_valid 0 w ltac:(lia)) as [[next w1] He].
    pose proof (registered_erase _ _ _ _ Hreg He) as Hreg1.
    destruct (erase_Some _ _ _ _ He) as (o & Ho & _ & Hobjs & Hnum & _).
    assert (Hlen1 : length (mObjects w1) = n).
    { rewrite Hobjs, length_delete by (eexists; exact Ho). lia. }
    destruct (IH w1 Hreg1 Hlen1) as (w' & Hrun & Hreg' & Hnil & Hnum').
    exists w'. rewrite replicate_S. simpl. rewrite He. simpl.
    split; [exact Hrun|]. split; [exact Hreg'|]. split; [exact Hnil|]. congruence.
Qed.

(** X7.  Emptying a world: in a world built by [pushBack] of rigid or soft
    objects and [erase], erasing at [begin()] once per registry entry always
    succeeds and leaves an empty registry and a context without live
    objects; the counter still holds its old value. *)
Theorem erase_at_begin_empties (w : DynamicsWorld) :
  populated w ->
  exists w',
    run (replicate (end_ w) (CallErase (begin w))) w = Some w'
    /\ getObjects w' = []
    /\ live_count w' = 0%Z
    /\ getNumObjects w' = getNumObjects w.
Proof.
  intros Hpop. pose proof (populated_registered w Hpop) as Hreg.
  destruct (registered_erase_all (end_ w) w Hreg eq_refl)
    as (w' & Hrun & Hreg' & Hnil & Hnum).
  exists w'. split; [exact Hrun|]. split; [exact Hnil|]. split; [|exact Hnum].
  rewrite <- (registered_count _ Hreg'), Hnil. reflexivity.
Qed.

(** *** Updating *)





(** X9.  In a world whose registry and context hold the same bodies,
    [update] makes [getNumObjects] the number of registry entries whenever
    the registry is not empty; with an empty registry it is left as it
    was. *)
Theorem update_counts_registry (frameRate : Float32.float) (w : DynamicsWorld) :
  registered w ->
  (Z.of_nat (length (getObjects w)) <= INT_MAX)%Z ->
  (getObjects w <> [] ->
   getNumObjects (update frameRate w) = Z.of_nat (length (getObjects w)))
  /\ (getObjects w = [] ->
      getNumObjects (update frameRate w) = getNumObjects w).
Proof.
  unfold getObjects, getNumObjects. intros Hreg Hint.
  pose proof (registered_count w Hreg) as Hcount. rewrite Hcount in Hint.
  rewrite update_mNumObjects. unfold reaches_count_update.
  rewrite (live_count_uint32 w Hint). split.
  - intros Hne.
    assert (0 < length (mObjects w)).
    { destruct (mObjects w); [congruence|simpl; lia]. }
    replace (live_count w <=? 0)%Z with false by (symmetry; apply Z.leb_gt; lia).
    rewrite andb_false_r. simpl. symmetry. exact Hcount.
  - intros Hnil. rewrite Hnil in Hcount. simpl in Hcount. rewrite <- Hcount.
    change (Z.of_nat 0) with 0%Z.
    destruct (mNumObjects w =? 0)%Z eqn:E; simpl; [|reflexivity].
    apply Z.eqb_eq in E. symmetry. exact E.
Qed.

Lemma update_bails frameRate w :
  live_count w = 0%Z -> mNumObjects w <> 0%Z -> update frameRate w = w.
Proof.
  intros Hz Hne. rewrite update_cases. unfold reaches_count_update. rewrite Hz.
  change (to_uint32 0) with 0%Z.
  replace (mNumObjects w =? 0)%Z with false by (symmetry; apply Z.eqb_neq; exact Hne).
  reflexivity.
Qed.

(** X10.  Once the context reports no live object while the counter is not
    zero, [update] stays without effect however often it is called: the
    context is never stepped and the counter never reset until the
    population changes again. *)
Theorem emptied_world_is_never_stepped (frameRates : list Float32.float)
    (w : DynamicsWorld) :
  live_count w = 0%Z ->
  getNumObjects w <> 0%Z ->
  updates frameRates w = w
  /\ emitted w (updates frameRates w) = []
  /\ getNumObjects (updates frameRates w) <> live_count (updates frameRates w).
Proof.
  unfold getNumObjects. intros Hz Hne.
  assert (Hsame : updates frameRates w = w).
  { induction frameRates as [|fr rest IH]; simpl; [reflexivity|].
    rewrite (update_bails fr w Hz Hne). exact IH. }
  rewrite Hsame. split; [reflexivity|]. split.
  - apply emitted_app. symmetry. apply app_nil_r.
  - rewrite Hz. exact Hne.
Qed.

(** X11.  [update] notices a population change by the count alone.  If,
    after an [update] has recorded the count, one object is erased and
    another rigid or soft object is appended, the next [update] runs no
    activation pass: it only steps, and the new body reaches the step as it
    was registered. *)
Theorem replacement_goes_unnoticed (frameRate : Float32.float) (pos : Iter)
    (object : CollisionObject) (w : DynamicsWorld) (next : Iter)
    (w1 : DynamicsWorld) :
  registered w ->
  getNumObjects w = to_uint32 (live_count w) ->
  erase pos w = Some (next, w1) ->
  valid_object object ->
  live_count (pushBack object w1) = live_count w
  /\ emitted (pushBack object w1) (update frameRate (pushBack object w1))
     = [step_event frameRate]
  /\ getCollisionObjectArray (mWorld_obj (update frameRate (pushBack object w1)))
     = integrate Float32.one 10 (fixedTimeStep_of frameRate)
         (getCollisionObjectArray (mWorld_obj w1) ++ [getBulletBody object]).
Proof.
  unfold getNumObjects. intros Hreg Hnum He Hv.
  pose proof (registered_erase _ _ _ _ Hreg He) as Hreg1.
  pose proof (registered_pushBack object w1 Hreg1 Hv) as Hreg2.
  destruct (erase_Some _ _ _ _ He) as (o & Ho & _ & Hobjs & Hnum1 & _).
  assert (Hlive : live_count (pushBack object w1) = live_count w).
  { rewrite <- (registered_count _ Hreg2), <- (registered_count _ Hreg).
    rewrite pushBack_mObjects, length_app, Hobjs.
    rewrite length_delete by (eexists; exact Ho).
    apply lookup_lt_Some in Ho. simpl. lia. }
  assert (Hno : runs_activation_pass (pushBack object w1) = false).
  { unfold runs_activation_pass.
    rewrite pushBack_mNumObjects, Hnum1, Hlive, Hnum, Z.eqb_refl. reflexivity. }
  assert (Hreach : reaches_count_update (pushBack object w1) = true).
  { unfold reaches_count_update.
    rewrite pushBack_mNumObjects, Hnum1, Hlive, Hnum, Z.eqb_refl. reflexivity. }
  split; [exact Hlive|]. split.
  - apply emitted_app. rewrite update_trace, Hno, Hreach. reflexivity.
  - rewrite update_array, Hno, Hreach, pushBack_array.
    unfold valid_object in Hv. rewrite Hv. reflexivity.
Qed.

Lemma expected_activations (objects : list CollisionObject) :
  Forall valid_object objects ->
  Forall well_typed_object objects ->
  omap activation_event (getBulletBody <$> objects) = expected_activation <$> objects.
Proof.
  induction objects as [|o rest IH]; intros Hv Ht; [reflexivity|].
  inversion Hv as [|? ? Hvo Hvrest]; inversion Ht as [|? ? Hto Htrest]; subst.
  assert (Hev : activation_event (getBulletBody o) = Some (expected_activation o)).
  { unfold activation_event, activation_path, expected_activation.
    unfold well_typed_object in Hto. unfold valid_object in Hvo.
    destruct (isRigidBody o), (isSoftBody o); try discriminate;
      rewrite Hto; reflexivity. }
  cbn [fmap list_fmap omap list_omap]. rewrite Hev. f_equal.
  apply (IH Hvrest Htrest).
Qed.

(** X12.  First tick after loading: when a non-empty batch of rigid and
    soft objects, each with a body of the kind it announces, is appended to
    a fresh world, the first [update] activates every one of them in
    insertion order, rigid objects by the rigid call and soft ones by the
    soft call, then steps once, and [getNumObjects] becomes the size of the
    batch. *)
Theorem first_update_wakes_batch (frameRate : Float32.float)
    (objects : list CollisionObject) (a1 a2 a3 a4 a5 : nat) :
  objects <> [] ->
  Forall valid_object objects ->
  Forall well_typed_object objects ->
  (Z.of_nat (length objects) <= INT_MAX)%Z ->
  emitted (pushBack_all objects (createWorld a1 a2 a3 a4 a5))
    (update frameRate (pushBack_all objects (createWorld a1 a2 a3 a4 a5)))
  = (expected_activation <$> objects) ++ [step_event frameRate]
  /\ getNumObjects
       (update frameRate (pushBack_all objects (createWorld a1 a2 a3 a4 a5)))
     = Z.of_nat (length objects).
Proof.
  intros Hne Hv Ht Hint.
  set (w := pushBack_all objects (createWorld a1 a2 a3 a4 a5)).
  assert (Harr : getCollisionObjectArray (mWorld_obj w) = getBulletBody <$> objects).
  { subst w. rewrite (pushBack_all_array _ _ Hv). reflexivity. }
  assert (Hlive : live_count w = Z.of_nat (length objects)).
  { unfold live_count, size. rewrite Harr, length_fmap. reflexivity. }
  assert (Hnum : mNumObjects w = 0%Z).
  { subst w. rewrite pushBack_all_mNumObjects. reflexivity. }
  assert (Hpos : (0 < live_count w)%Z).
  { rewrite Hlive. destruct objects; [congruence|simpl; lia]. }
  assert (Hu : to_uint32 (live_count w) = live_count w).
  { apply live_count_uint32. rewrite Hlive. exact Hint. }
  assert (Hact : runs_activation_pass w = true).
  { unfold runs_activation_pass. rewrite Hu, Hnum.
    replace (0 =? live_count w)%Z with false by (symmetry; apply Z.eqb_neq; lia).
    replace (live_count w <=? 0)%Z with false by (symmetry; apply Z.leb_gt; lia).
    reflexivity. }
  pose proof (runs_activation_pass_reaches w Hact) as Hreach.
  split.
  - apply emitted_app. rewrite update_trace, Hact, Hreach.
    rewrite visited_all by (unfold INT_MAX, UINT32_MOD in *; lia).
    rewrite Harr, (expected_activations _ Hv Ht). reflexivity.
  - unfold getNumObjects. rewrite update_mNumObjects, Hreach, Hu. exact Hlive.
Qed.

(** X13.  A frame rate below [1.0] (a stalled host, zero, a negative value)
    steps the context with a sub-step duration of exactly [1.0]. *)
Theorem slow_frame_rate_steps_one_second (frameRate : Float32.float)
    (w : DynamicsWorld) :
  Float32.gt Float32.one frameRate = true ->
  reaches_count_update w = true ->
  filter is_step (emitted w (update frameRate w))
  = [EvStepSimulation Float32.one 10 Float32.one].
Proof.
  intros Hgt Hreach.
  rewrite (emitted_app _ _ _ (update_trace frameRate w)), Hreach, filter_app.
  assert (Hacts : filter is_step
            (if runs_activation_pass w then omap activation_event (visited w) else [])
          = []).
  { destruct (runs_activation_pass w); [apply omap_activation_no_step|reflexivity]. }
  rewrite Hacts. unfold fixedTimeStep_of, Float32.max. rewrite Hgt. reflexivity.
Qed.

Lemma steady_updates frameRates : forall w,
  size_preserving ->
  mNumObjects w = to_uint32 (live_count w) ->
  trace (updates frameRates w) = trace w ++ (step_event <$> frameRates)
  /\ mNumObjects (updates frameRates w) = mNumObjects w
  /\ live_count (updates frameRates w) = live_count w.
Proof.
  induction frameRates as [|fr rest IH]; intros w Hsize Hnum; simpl.
  - split; [symmetry; apply app_nil_r|]. split; reflexivity.
  - fold (updates rest (update fr w)).
    assert (Hno : runs_activation_pass w = false).
    { unfold runs_activation_pass. rewrite Hnum, Z.eqb_refl. reflexivity. }
    assert (Hreach : reaches_count_update w = true).
    { unfold reaches_count_update. rewrite Hnum, Z.eqb_refl. reflexivity. }
    assert (Hlive : live_count (update fr w) = live_count w).
    { unfold live_count, size. rewrite update_array, Hreach, Hno, Hsize.
      reflexivity. }
    assert (Hnum' : mNumObjects (update fr w) = mNumObjects w).
    { rewrite update_mNumObjects, Hreach. symmetry. exact Hnum. }
    destruct (IH (update fr w) Hsize ltac:(rewrite Hnum', Hlive; exact Hnum))
      as (Htr & Hn & Hl).
    split; [|split; congruence].
    rewrite Htr, update_trace, Hno, Hreach, <- app_assoc. reflexivity.
Qed.

(** X14.  Steady state: when the engine's step neither adds nor removes
    bodies and the counter already equals the live count (as after any
    [update] that was not cut short), every further [update] performs
    exactly one step and no activation, and the counter and the live count
    stay as they are.  This includes a fresh, empty world, which is stepped
    on every call. *)
Theorem steady_state_only_steps (frameRates : list Float32.float)
    (w : DynamicsWorld) :
  size_preserving ->
  getNumObjects w = to_uint32 (live_count w) ->
  emitted w (updates frameRates w) = step_event <$> frameRates
  /\ getNumObjects (updates frameRates w) = getNumObjects w
  /\ live_count (updates frameRates w) = live_count w.
Proof.
  unfold getNumObjects. intros Hsize Hnum.
  destruct (steady_updates frameRates w Hsize Hnum) as (Htr & Hn & Hl).
  split; [apply emitted_app; exact Htr|]. split; assumption.
Qed.

(** *** The registration invariant across updates *)

Lemma after_activation_addresses w :
  address <$> after_activation w
  = address <$> getCollisionObjectArray (mWorld_obj w).
Proof.
  unfold after_activation, visited. rewrite fmap_app, <- list_fmap_compose.
  rewrite (list_fmap_ext (address ∘ woken) address)
    by (intros; apply woken_address).
  rewrite <- fmap_app, take_drop. reflexivity.
Qed.

Lemma registered_update frameRate w :
  address_preserving -> registered w -> registered (update frameRate w).
Proof.
  intros Hpres [Hperm Hall].
  destruct (update_same_members frameRate w) as (_ & _ & _ & _ & _ & Hobjs).
  split; [|rewrite Hobjs; exact Hall].
  rewrite Hobjs, update_array, Hperm.
  destruct (reaches_count_update w); [|reflexivity].
  rewrite Hpres.
  destruct (runs_activation_pass w); [|reflexivity].
  rewrite after_activation_addresses. reflexivity.
Qed.

Lemma registered_run cs : forall w w',
  address_preserving ->
  Forall valid_call cs ->
  registered w ->
  run cs w = Some w' ->
  registered w'.
Proof.
  induction cs as [|c rest IH]; intros w w' Hpres Hvalid Hreg; simpl.
  - intros [= <-]. exact Hreg.
  - inversion Hvalid as [|? ? Hc Hrest]; subst.
    destruct (call c w) as [w1|] eqn:Hcall; [|discriminate].
    intros Hrun. apply (IH w1 w' Hpres Hrest); [|exact Hrun].
    destruct c as [object|pos|frameRate]; simpl in Hcall, Hc.
    + injection Hcall as <-. apply registered_pushBack; assumption.
    + destruct (erase pos w) as [[next w2]|] eqn:He; [|discriminate].
      simpl in Hcall. injection Hcall as <-. eapply registered_erase; eassumption.
    + injection Hcall as <-. apply registered_update; assumption.
Qed.

(** X15.  The registry and the context stay reconciled across [update]
    too: when the engine's step keeps the bodies of the context, then after
    any sequence of [pushBack] calls on rigid or soft objects, [erase]
    calls and [update] calls on a fresh world, the registry holds as many
    objects as the context reports live, and the bodies are the same. *)
Theorem registration_survives_updates (cs : list Call) (a1 a2 a3 a4 a5 : nat)
    (w' : DynamicsWorld) :
  address_preserving ->
  Forall valid_call cs ->
  run cs (createWorld a1 a2 a3 a4 a5) = Some w' ->
  Z.of_nat (length (getObjects w')) = live_count w'
  /\ (address ∘ getBulletBody) <$> getObjects w' ≡ₚ live_addresses w'.
Proof.
  intros Hpres Hvalid Hrun.
  assert (Hreg0 : registered (createWorld a1 a2 a3 a4 a5))
    by (split; [reflexivity|constructor]).
  pose proof (registered_run cs _ _ Hpres Hvalid Hreg0 Hrun) as Hreg.
  split; [apply registered_count; exact Hreg|]. destruct Hreg as [Hperm _].
  exact Hperm.
Qed.

End World.

(** ** The operations on sample worlds *)

(** The scenario of the spec, up to the erase: a fresh world reports no
    object; a box is appended and one [update] records it; a soft body is
    appended and the next [update] runs the activation pass again; the box is
    erased and one object stays live. *)
Example scenario_counts :
  exists w1 w2 w3,
    getNumObjects (create 1 2 3 4 5) = 0%Z
    /\ run lull [CallPushBack rigid_box; CallUpdate sixty_fps] (create 1 2 3 4 5)
       = Some w1
    /\ getNumObjects w1 = 1%Z
    /\ run lull [CallPushBack soft_cloth] w1 = Some w2
    /\ emitted w2 (update lull sixty_fps w2) =
         [EvActivate RigidPath 101; EvActivate SoftPath 102;
          EvStepSimulation Float32.one 10 (fixedTimeStep_of sixty_fps)]
    /\ run lull [CallUpdate sixty_fps; CallErase 0] w2 = Some w3
    /\ live_count w3 = 1%Z
    /\ address <$> getCollisionObjectArray (mWorld_obj w3) = [102].
Proof.
  do 3 eexists. split; [reflexivity|].
  split; [vm_compute; reflexivity|]. split; [reflexivity|].
  split; [vm_compute; reflexivity|]. split; [vm_compute; reflexivity|].
  split; [vm_compute; reflexivity|]. split; reflexivity.
Qed.

Example emptied_world_reached :
  run lull [CallPushBack rigid_box; CallUpdate sixty_fps; CallErase 0]
    (create 1 2 3 4 5)
  = Some emptied_world.
Proof. vm_compute. reflexivity. Qed.

(** C1 at a sample world: two objects appended, the first erased. *)
Lemma registration_invariant_witness :
  populated (mObjects_erase 0
               (mWorld_removeRigidBody (getBulletBody rigid_box)
                  (pushBack soft_cloth (pushBack rigid_box (create 1 2 3 4 5)))))
  /\ Z.of_nat (length (getObjects
       (mObjects_erase 0
          (mWorld_removeRigidBody (getBulletBody rigid_box)
             (pushBack soft_cloth (pushBack rigid_box (create 1 2 3 4 5)))))))
     = 1%Z.
Proof.
  assert (Hpop : populated (mObjects_erase 0
               (mWorld_removeRigidBody (getBulletBody rigid_box)
                  (pushBack soft_cloth (pushBack rigid_box (create 1 2 3 4 5)))))).
  { apply (populated_erase 0
             (pushBack soft_cloth (pushBack rigid_box (create 1 2 3 4 5))) 0).
    - apply populated_pushBack; [|reflexivity].
      apply populated_pushBack; [|reflexivity].
      apply populated_create.
    - reflexivity. }
  split; [exact Hpop|].
  exact (proj1 (registration_invariant _ Hpop)).
Defined.

(** C2 is not what the code does: on the emptied world the context reports
    no live object, yet after [update] the counter still holds [1]. *)
Lemma update_keeps_stale_count :
  run lull [CallPushBack rigid_box; CallUpdate sixty_fps; CallErase 0]
    (create 1 2 3 4 5) = Some emptied_world
  /\ live_count emptied_world = 0%Z
  /\ mNumObjects (update lull sixty_fps emptied_world) = 1%Z
  /\ mNumObjects (update lull sixty_fps emptied_world) <> live_count emptied_world.
Proof.
  split; [vm_compute; reflexivity|]. split; [reflexivity|].
  split; [reflexivity|]. vm_compute. discriminate.
Qed.

Lemma update_records_live_count_witness :
  (live_count (pushBack rigid_box (create 1 2 3 4 5)) <= INT_MAX)%Z
  /\ mNumObjects (update lull sixty_fps (pushBack rigid_box (create 1 2 3 4 5)))
     = 1%Z.
Proof.
  assert (H : (live_count (pushBack rigid_box (create 1 2 3 4 5)) <= INT_MAX)%Z)
    by (vm_compute; discriminate).
  split; [exact H|].
  exact (update_records_live_count lull sixty_fps
           (pushBack rigid_box (create 1 2 3 4 5)) H).
Defined.

Lemma update_noop_on_emptied_world_witness :
  live_count emptied_world = 0%Z
  /\ mNumObjects emptied_world <> live_count emptied_world
  /\ update lull sixty_fps emptied_world = emptied_world.
Proof.
  assert (H1 : live_count emptied_world = 0%Z) by reflexivity.
  assert (H2 : mNumObjects emptied_world <> live_count emptied_world)
    by (vm_compute; discriminate).
  split; [exact H1|]. split; [exact H2|].
  exact (proj1 (update_noop_on_emptied_world lull sixty_fps emptied_world H1 H2)).
Defined.

(** C4 is not what the code does: the constraint solver is not deleted
    before the simulation context, so the context is not the last to go. *)
Lemma destructor_context_not_last :
  owns_all (create 1 2 3 4 5)
  /\ last (destructor (create 1 2 3 4 5)) = Some (EvDelete ConstraintSolver)
  /\ ~ deleted_before ConstraintSolver SimulationContext
         (destructor (create 1 2 3 4 5)).
Proof.
  split; [apply create_owns_all|]. split; [reflexivity|].
  intros (i & j & Hi & Hj & Hlt). vm_compute in Hi, Hj.
  injection Hi as <-. injection Hj as <-. lia.
Qed.

Lemma destructor_order_witness :
  owns_all (create 1 2 3 4 5)
  /\ destructor (create 1 2 3 4 5) =
       [EvDelete Broadphase; EvDelete CollisionConfiguration; EvDelete Dispatcher;
        EvDelete SimulationContext; EvDelete ConstraintSolver].
Proof.
  assert (H : owns_all (create 1 2 3 4 5)) by (repeat split).
  split; [exact H|]. exact (proj1 (destructor_order _ H)).
Defined.

Lemma erase_unregisters_then_removes_witness :
  getObjects (pushBack soft_cloth (pushBack rigid_box (create 1 2 3 4 5))) !! 0
    = Some rigid_box
  /\ exists next w1 w',
       erase 0 (pushBack soft_cloth (pushBack rigid_box (create 1 2 3 4 5)))
         = Some (next, w')
       /\ emitted (pushBack soft_cloth (pushBack rigid_box (create 1 2 3 4 5))) w1
          = [EvRemoveRigidBody 101]
       /\ emitted (pushBack soft_cloth (pushBack rigid_box (create 1 2 3 4 5))) w'
          = emitted (pushBack soft_cloth (pushBack rigid_box (create 1 2 3 4 5))) w1
            ++ [EvErase 0]
       /\ getObjects w' !! next = Some soft_cloth.
Proof.
  assert (H1 : getObjects (pushBack soft_cloth (pushBack rigid_box (create 1 2 3 4 5)))
               !! 0 = Some rigid_box) by reflexivity.
  split; [exact H1|].
  destruct (erase_unregisters_then_removes 0 _ rigid_box H1)
    as (next & w1 & w' & He & _ & Hfirst & _ & Hboth & _ & _ & _ & _ & Hnext & _).
  exists next, w1, w'. split; [exact He|].
  split; [exact (proj2 (Hfirst eq_refl))|]. split; [exact Hboth|exact Hnext].
Defined.

Lemma update_activates_on_change_witness :
  (live_count (pushBack soft_cloth (pushBack rigid_box (create 1 2 3 4 5)))
   <= INT_MAX)%Z
  /\ live_count (pushBack soft_cloth (pushBack rigid_box (create 1 2 3 4 5))) <> 0%Z
  /\ mNumObjects (pushBack soft_cloth (pushBack rigid_box (create 1 2 3 4 5)))
     <> live_count (pushBack soft_cloth (pushBack rigid_box (create 1 2 3 4 5)))
  /\ emitted (pushBack soft_cloth (pushBack rigid_box (create 1 2 3 4 5)))
       (update lull sixty_fps
          (pushBack soft_cloth (pushBack rigid_box (create 1 2 3 4 5))))
     = [EvActivate RigidPath 101; EvActivate SoftPath 102;
        EvStepSimulation Float32.one 10 (fixedTimeStep_of sixty_fps)].
Proof.
  assert (H1 : (live_count (pushBack soft_cloth (pushBack rigid_box (create 1 2 3 4 5)))
                <= INT_MAX)%Z) by (vm_compute; discriminate).
  assert (H2 : live_count (pushBack soft_cloth (pushBack rigid_box (create 1 2 3 4 5)))
               <> 0%Z) by (vm_compute; discriminate).
  assert (H3 : mNumObjects (pushBack soft_cloth (pushBack rigid_box (create 1 2 3 4 5)))
               <> live_count (pushBack soft_cloth (pushBack rigid_box (create 1 2 3 4 5))))
    by (vm_compute; discriminate).
  split; [exact H1|]. split; [exact H2|]. split; [exact H3|].
  exact (proj1 (update_activates_on_change lull sixty_fps _ H1 H2 H3)).
Defined.

Lemma second_update_skips_activation_witness :
  mNumObjects (update lull sixty_fps (pushBack rigid_box (create 1 2 3 4 5)))
    = mNumObjects (update lull sixty_fps (pushBack rigid_box (create 1 2 3 4 5)))
  /\ live_count (update lull sixty_fps (pushBack rigid_box (create 1 2 3 4 5)))
     = live_count (pushBack rigid_box (create 1 2 3 4 5))
  /\ runs_activation_pass (pushBack rigid_box (create 1 2 3 4 5)) = true
  /\ runs_activation_pass
       (update lull sixty_fps (pushBack rigid_box (create 1 2 3 4 5))) = false
  /\ filter is_activation
       (emitted (update lull sixty_fps (pushBack rigid_box (create 1 2 3 4 5)))
          (update lull sixty_fps
             (update lull sixty_fps (pushBack rigid_box (create 1 2 3 4 5)))))
     = [].
Proof.
  assert (H1 : mNumObjects (update lull sixty_fps (pushBack rigid_box (create 1 2 3 4 5)))
    = mNumObjects (update lull sixty_fps (pushBack rigid_box (create 1 2 3 4 5))))
    by reflexivity.
  assert (H2 : live_count (update lull sixty_fps (pushBack rigid_box (create 1 2 3 4 5)))
     = live_count (pushBack rigid_box (create 1 2 3 4 5))) by reflexivity.
  split; [exact H1|]. split; [exact H2|]. split; [reflexivity|].
  destruct (second_update_skips_activation lull sixty_fps sixty_fps
              (pushBack rigid_box (create 1 2 3 4 5))
              (update lull sixty_fps (pushBack rigid_box (create 1 2 3 4 5)))
              H1 H2) as (Hno & Hevs & _).
  split; [exact Hno|exact Hevs].
Defined.

Lemma getNumObjects_follows_updates_witness :
  run lull [CallPushBack rigid_box; CallUpdate sixty_fps; CallErase 0;
            CallUpdate sixty_fps; CallPushBack soft_cloth]
    (create 1 2 3 4 5)
  = Some (pushBack soft_cloth emptied_world)
  /\ getNumObjects (pushBack soft_cloth emptied_world) = 1%Z.
Proof.
  assert (H : run lull [CallPushBack rigid_box; CallUpdate sixty_fps; CallErase 0;
                        CallUpdate sixty_fps; CallPushBack soft_cloth]
                (create 1 2 3 4 5)
              = Some (pushBack soft_cloth emptied_world)) by reflexivity.
  split; [exact H|].
  exact (proj2 (proj2 (proj2 (getNumObjects_follows_updates lull))) _ 1 2 3 4 5 _ H).
Defined.

Lemma untyped_object_bypasses_context_witness :
  isRigidBody untyped_object = false
  /\ isSoftBody untyped_object = false
  /\ emitted (create 1 2 3 4 5) (pushBack untyped_object (create 1 2 3 4 5))
     = [EvPushBack 103]
  /\ exists w',
       erase 0 (pushBack untyped_object (create 1 2 3 4 5)) = Some (0, w')
       /\ emitted (pushBack untyped_object (create 1 2 3 4 5)) w' = [EvErase 0].
Proof.
  assert (H1 : isRigidBody untyped_object = false) by reflexivity.
  assert (H2 : isSoftBody untyped_object = false) by reflexivity.
  split; [exact H1|]. split; [exact H2|].
  destruct (untyped_object_bypasses_context untyped_object (create 1 2 3 4 5) H1 H2)
    as (_ & _ & Hpush & Herase).
  split; [exact Hpush|].
  destruct (Herase 0 (pushBack untyped_object (create 1 2 3 4 5)) eq_refl)
    as (w' & He & _ & Hem & _).
  exists w'. split; assumption.
Defined.

(** ** The further properties on sample worlds *)

Lemma lull_size_preserving : size_preserving lull.
Proof. intros timeStep maxSubSteps fixedTimeStep arr. apply length_fmap. Qed.

Lemma lull_address_preserving : address_preserving lull.
Proof.
  intros timeStep maxSubSteps fixedTimeStep arr. unfold lull.
  rewrite <- list_fmap_compose. reflexivity.
Qed.

Lemma pushBack_all_preserves_order_witness :
  Forall valid_object [rigid_box; soft_cloth]
  /\ getObjects (pushBack_all [rigid_box; soft_cloth] (createWorld 1 2 3 4 5))
     = [rigid_box; soft_cloth]
  /\ live_addresses (pushBack_all [rigid_box; soft_cloth] (createWorld 1 2 3 4 5))
     = [101; 102].
Proof.
  assert (H : Forall valid_object [rigid_box; soft_cloth])
    by (repeat constructor).
  split; [exact H|].
  destruct (pushBack_all_preserves_order [rigid_box; soft_cloth]
              (createWorld 1 2 3 4 5)) as (Hobjs & _ & _ & Harr).
  split; [exact Hobjs|]. unfold live_addresses. rewrite (Harr H). reflexivity.
Defined.

Lemma calls_keep_owned_members_witness :
  run lull [CallPushBack rigid_box; CallUpdate sixty_fps; CallErase 0;
            CallUpdate sixty_fps]
    (createWorld 1 2 3 4 5) = Some emptied_world
  /\ getWorld emptied_world = addr 5
  /\ destructor emptied_world =
       [EvDelete Broadphase; EvDelete CollisionConfiguration; EvDelete Dispatcher;
        EvDelete SimulationContext; EvDelete ConstraintSolver].
Proof.
  assert (H : run lull [CallPushBack rigid_box; CallUpdate sixty_fps; CallErase 0;
                        CallUpdate sixty_fps]
                (createWorld 1 2 3 4 5) = Some emptied_world) by reflexivity.
  split; [exact H|].
  destruct (calls_keep_owned_members lull _ 1 2 3 4 5 _ H)
    as (_ & _ & _ & _ & Hw & Hd).
  split; [exact Hw|exact Hd].
Defined.

Lemma pushBack_then_erase_restores_witness :
  (address (getBulletBody soft_cloth)
   ∉ live_addresses (pushBack rigid_box (createWorld 1 2 3 4 5)))
  /\ exists w',
       erase 1 (pushBack soft_cloth (pushBack rigid_box (createWorld 1 2 3 4 5)))
         = Some (end_ w', w')
       /\ getObjects w' = [rigid_box]
       /\ mWorld_obj w' = mWorld_obj (pushBack rigid_box (createWorld 1 2 3 4 5)).
Proof.
  assert (H : address (getBulletBody soft_cloth)
              ∉ live_addresses (pushBack rigid_box (createWorld 1 2 3 4 5))).
  { intros Hin. apply list_elem_of_singleton in Hin. discriminate. }
  split; [exact H|].
  destruct (pushBack_then_erase_restores soft_cloth
              (pushBack rigid_box (createWorld 1 2 3 4 5)) H)
    as (w' & He & Hobjs & Hctx & _).
  exists w'. split; [exact He|]. split; [exact Hobjs|exact Hctx].
Defined.

Lemma erase_body_no_longer_live_witness :
  NoDup (live_addresses
           (pushBack soft_cloth (pushBack rigid_box (createWorld 1 2 3 4 5))))
  /\ valid_object rigid_box
  /\ (101 ∉ live_addresses
        (mObjects_erase 0
           (mWorld_removeRigidBody (getBulletBody rigid_box)
              (pushBack soft_cloth (pushBack rigid_box (createWorld 1 2 3 4 5)))))).
Proof.
  assert (H1 : NoDup (live_addresses
             (pushBack soft_cloth (pushBack rigid_box (createWorld 1 2 3 4 5))))).
  { apply NoDup_cons. split; [|apply NoDup_singleton].
    intros Hin. apply list_elem_of_singleton in Hin. discriminate. }
  assert (H2 : valid_object rigid_box) by reflexivity.
  assert (Ho : getObjects
                 (pushBack soft_cloth (pushBack rigid_box (createWorld 1 2 3 4 5)))
               !! 0 = Some rigid_box) by (vm_compute; reflexivity).
  assert (He : erase 0
                 (pushBack soft_cloth (pushBack rigid_box (createWorld 1 2 3 4 5)))
               = Some (0,
                   mObjects_erase 0
                     (mWorld_removeRigidBody (getBulletBody rigid_box)
                        (pushBack soft_cloth
                           (pushBack rigid_box (createWorld 1 2 3 4 5))))))
    by (vm_compute; reflexivity).
  split; [exact H1|]. split; [exact H2|].
  exact (proj1 (erase_body_no_longer_live 0 _ rigid_box 0 _ H1 Ho H2 He)).
Defined.

Lemma erase_at_begin_empties_witness :
  populated (pushBack soft_cloth (pushBack rigid_box (createWorld 1 2 3 4 5)))
  /\ exists w',
       run lull [CallErase 0; CallErase 0]
         (pushBack soft_cloth (pushBack rigid_box (createWorld 1 2 3 4 5)))
       = Some w'
       /\ getObjects w' = [] /\ live_count w' = 0%Z.
Proof.
  assert (H : populated
                (pushBack soft_cloth (pushBack rigid_box (createWorld 1 2 3 4 5)))).
  { apply populated_pushBack; [|reflexivity].
    apply populated_pushBack; [|reflexivity]. apply populated_create. }
  split; [exact H|].
  destruct (erase_at_begin_empties lull _ H) as (w' & Hrun & Hnil & Hlive & _).
  exists w'. split; [exact Hrun|]. split; [exact Hnil|exact Hlive].
Defined.

Lemma update_counts_registry_witness :
  registered (pushBack soft_cloth (pushBack rigid_box (createWorld 1 2 3 4 5)))
  /\ getNumObjects
       (pushBack soft_cloth (pushBack rigid_box (createWorld 1 2 3 4 5))) = 0%Z
  /\ getNumObjects
       (update lull sixty_fps
          (pushBack soft_cloth (pushBack rigid_box (createWorld 1 2 3 4 5))))
     = 2%Z.
Proof.
  assert (H1 : registered
                 (pushBack soft_cloth (pushBack rigid_box (createWorld 1 2 3 4 5))))
    by (split; [reflexivity|repeat constructor]).
  assert (H2 : (Z.of_nat (length (getObjects
                  (pushBack soft_cloth (pushBack rigid_box (createWorld 1 2 3 4 5)))))
                <= INT_MAX)%Z) by (vm_compute; discriminate).
  split; [exact H1|]. split; [reflexivity|].
  apply (proj1 (update_counts_registry lull sixty_fps _ H1 H2)).
  discriminate.
Defined.

Lemma emptied_world_is_never_stepped_witness :
  live_count emptied_world = 0%Z
  /\ getNumObjects emptied_world <> 0%Z
  /\ updates lull [sixty_fps; Float32.zero; sixty_fps] emptied_world = emptied_world.
Proof.
  assert (H1 : live_count emptied_world = 0%Z) by reflexivity.
  assert (H2 : getNumObjects emptied_world <> 0%Z) by (vm_compute; discriminate).
  split; [exact H1|]. split; [exact H2|].
  exact (proj1 (emptied_world_is_never_stepped lull _ emptied_world H1 H2)).
Defined.

Lemma replacement_goes_unnoticed_witness :
  registered (update lull sixty_fps (pushBack rigid_box (createWorld 1 2 3 4 5)))
  /\ valid_object soft_cloth
  /\ emitted
       (pushBack soft_cloth
          (mObjects_erase 0
             (mWorld_removeRigidBody (getBulletBody rigid_box)
                (update lull sixty_fps (pushBack rigid_box (createWorld 1 2 3 4 5))))))
       (update lull sixty_fps
          (pushBack soft_cloth
             (mObjects_erase 0
                (mWorld_removeRigidBody (getBulletBody rigid_box)
                   (update lull sixty_fps
                      (pushBack rigid_box (createWorld 1 2 3 4 5)))))))
     = [step_event sixty_fps].
Proof.
  assert (H1 : registered
                 (update lull sixty_fps (pushBack rigid_box (createWorld 1 2 3 4 5))))
    by (split; [reflexivity|repeat constructor]).
  assert (H2 : valid_object soft_cloth) by reflexivity.
  assert (Hn : getNumObjects
                 (update lull sixty_fps (pushBack rigid_box (createWorld 1 2 3 4 5)))
               = to_uint32 (live_count
                   (update lull sixty_fps
                      (pushBack rigid_box (createWorld 1 2 3 4 5)))))
    by (vm_compute; reflexivity).
  assert (He : erase 0
                 (update lull sixty_fps (pushBack rigid_box (createWorld 1 2 3 4 5)))
               = Some (0,
                   mObjects_erase 0
                     (mWorld_removeRigidBody (getBulletBody rigid_box)
                        (update lull sixty_fps
                           (pushBack rigid_box (createWorld 1 2 3 4 5))))))
    by (vm_compute; reflexivity).
  split; [exact H1|]. split; [exact H2|].
  exact (proj1 (proj2 (replacement_goes_unnoticed lull sixty_fps 0 soft_cloth
                         _ 0 _ H1 Hn He H2))).
Defined.

Lemma first_update_wakes_batch_witness :
  Forall valid_object [rigid_box; soft_cloth]
  /\ Forall well_typed_object [rigid_box; soft_cloth]
  /\ emitted (pushBack_all [rigid_box; soft_cloth] (createWorld 1 2 3 4 5))
       (update lull sixty_fps
          (pushBack_all [rigid_box; soft_cloth] (createWorld 1 2 3 4 5)))
     = [EvActivate RigidPath 101; EvActivate SoftPath 102; step_event sixty_fps].
Proof.
  assert (H1 : Forall valid_object [rigid_box; soft_cloth]) by (repeat constructor).
  assert (H2 : Forall well_typed_object [rigid_box; soft_cloth])
    by (repeat constructor).
  assert (H3 : (Z.of_nat (length [rigid_box; soft_cloth]) <= INT_MAX)%Z)
    by (vm_compute; discriminate).
  split; [exact H1|]. split; [exact H2|].
  exact (proj1 (first_update_wakes_batch lull sixty_fps [rigid_box; soft_cloth]
                  1 2 3 4 5 ltac:(discriminate) H1 H2 H3)).
Defined.

Lemma slow_frame_rate_steps_one_second_witness :
  Float32.gt Float32.one Float32.zero = true
  /\ reaches_count_update (pushBack rigid_box (createWorld 1 2 3 4 5)) = true
  /\ filter is_step
       (emitted (pushBack rigid_box (createWorld 1 2 3 4 5))
          (update lull Float32.zero (pushBack rigid_box (createWorld 1 2 3 4 5))))
     = [EvStepSimulation Float32.one 10 Float32.one].
Proof.
  split; [reflexivity|]. split; [reflexivity|].
  exact (slow_frame_rate_steps_one_second lull Float32.zero
           (pushBack rigid_box (createWorld 1 2 3 4 5)) eq_refl eq_refl).
Defined.

Lemma steady_state_only_steps_witness :
  size_preserving lull
  /\ getNumObjects (createWorld 1 2 3 4 5)
     = to_uint32 (live_count (createWorld 1 2 3 4 5))
  /\ emitted (createWorld 1 2 3 4 5)
       (updates lull [sixty_fps; Float32.zero] (createWorld 1 2 3 4 5))
     = [step_event sixty_fps; step_event Float32.zero].
Proof.
  split; [exact lull_size_preserving|]. split; [reflexivity|].
  exact (proj1 (steady_state_only_steps lull [sixty_fps; Float32.zero]
                  (createWorld 1 2 3 4 5) lull_size_preserving eq_refl)).
Defined.

Lemma registration_survives_updates_witness :
  address_preserving lull
  /\ Forall valid_call
       [CallPushBack rigid_box; CallUpdate sixty_fps; CallPushBack soft_cloth;
        CallUpdate sixty_fps; CallErase 0; CallUpdate sixty_fps]
  /\ exists w',
       run lull
         [CallPushBack rigid_box; CallUpdate sixty_fps; CallPushBack soft_cloth;
          CallUpdate sixty_fps; CallErase 0; CallUpdate sixty_fps]
         (createWorld 1 2 3 4 5) = Some w'
       /\ Z.of_nat (length (getObjects w')) = live_count w'.
Proof.
  assert (H : Forall valid_call
       [CallPushBack rigid_box; CallUpdate sixty_fps; CallPushBack soft_cloth;
        CallUpdate sixty_fps; CallErase 0; CallUpdate sixty_fps])
    by (repeat constructor).
  split; [exact lull_address_preserving|]. split; [exact H|].
  destruct (run lull
         [CallPushBack rigid_box; CallUpdate sixty_fps; CallPushBack soft_cloth;
          CallUpdate sixty_fps; CallErase 0; CallUpdate sixty_fps]
         (createWorld 1 2 3 4 5)) as [w'|] eqn:Hrun.
  - exists w'. split; [reflexivity|].
    exact (proj1 (registration_survives_updates lull _ 1 2 3 4 5 _
                    lull_address_preserving H Hrun)).
  - exfalso. vm_compute in Hrun. discriminate.
Defined.
